(** * A disk-persisted cache: the file layout and the New / Set / Get protocol

    Shallow embedding of [cache.go] (package [cache]).  A [Cache] handle holds
    an identifier and an expiry configuration; its backing file is

      [4 bytes: little-endian L] [L bytes: gob of the handle] [gob of the items]

    The Go functions [New], [Set] and [Get] are embedded as functions that pass
    the file system explicitly and read the clock as an argument.  The standard
    library calls they make ([os], [bytes], [encoding/binary], [encoding/gob],
    [time], [path]) are modelled below, one definition per call. *)

From stdpp Require Import base option list strings gmap.
From Stdlib Require Import ZArith Lia.
From Stdlib.Strings Require Import Byte.

Local Open Scope Z_scope.

(** ** Bytes and [encoding/binary] *)

(** Go's conversion [byte(v)] of an unsigned integer keeps the low 8 bits. *)
Definition byte_of_Z (z : Z) : byte :=
  match Byte.of_N (Z.to_N (z mod 256)) with
  | Some b => b
  | None => "000"%byte
  end.

(** Go's conversion [uint32(b)] of a byte. *)
Definition Z_of_byte (b : byte) : Z := Z.of_N (Byte.to_N b).

(** Go's conversion [uint32(n)] of an [int]: wrap-around modulo 2^32. *)
Definition uint32 (n : Z) : Z := n mod 2 ^ 32.

(** [make([]byte, n)]: a zeroed slice. *)
Definition make_bytes (n : nat) : list byte := replicate n "000"%byte.

(** [binary.LittleEndian.PutUint32(b, v)] on a 4-byte slice [b]; the result is
    the slice after the call. *)
Definition LittleEndian_PutUint32 (v : Z) : list byte :=
  [ byte_of_Z v;
    byte_of_Z (Z.shiftr v 8);
    byte_of_Z (Z.shiftr v 16);
    byte_of_Z (Z.shiftr v 24) ].

(** [binary.LittleEndian.Uint32(b)].  Go panics on a slice shorter than four
    bytes; the callers below always pass a slice made with length 4. *)
Definition LittleEndian_Uint32 (b : list byte) : Z :=
  match b with
  | b0 :: b1 :: b2 :: b3 :: _ =>
      Z.lor (Z.lor (Z.lor (Z_of_byte b0) (Z.shiftl (Z_of_byte b1) 8))
                   (Z.shiftl (Z_of_byte b2) 16))
            (Z.shiftl (Z_of_byte b3) 24)
  | _ => 0
  end.

Lemma Z_of_byte_range (b : byte) : 0 <= Z_of_byte b < 256.
Proof.
  unfold Z_of_byte. pose proof (Byte.to_N_bounded b). lia.
Qed.

Lemma Z_of_byte_of_Z (z : Z) : Z_of_byte (byte_of_Z z) = z mod 256.
Proof.
  unfold Z_of_byte, byte_of_Z.
  assert (Hr : 0 <= z mod 256 < 256) by (apply Z.mod_pos_bound; lia).
  destruct (Byte.of_N (Z.to_N (z mod 256))) as [b|] eqn:E.
  - apply Byte.to_of_N in E. rewrite E. lia.
  - apply Byte.of_N_None_iff in E. lia.
Qed.

Lemma LittleEndian_Uint32_PutUint32 (v : Z) :
  LittleEndian_Uint32 (LittleEndian_PutUint32 v) = uint32 v.
Proof.
  unfold LittleEndian_Uint32, LittleEndian_PutUint32, uint32.
  rewrite !Z_of_byte_of_Z.
  apply Z.bits_inj'. intros n Hn.
  change 256 with (2 ^ 8).
  rewrite !Z.lor_spec, !Z.shiftl_spec, !Z.testbit_mod_pow2 by lia.
  assert (Hsh : forall k, 0 <= k -> k <= n ->
            Z.testbit (Z.shiftr v k) (n - k) = Z.testbit v n).
  { intros k Hk Hkn. rewrite Z.shiftr_spec by lia. f_equal. lia. }
  destruct (Z.ltb_spec n 8), (Z.ltb_spec n 32),
           (Z.ltb_spec (n - 8) 8), (Z.ltb_spec (n - 16) 8),
           (Z.ltb_spec (n - 24) 8); try lia;
    rewrite ?(Z.testbit_neg_r _ (n - 8)), ?(Z.testbit_neg_r _ (n - 16)),
            ?(Z.testbit_neg_r _ (n - 24)) by lia;
    rewrite ?Hsh by lia; simpl; rewrite ?orb_false_r; reflexivity.
Qed.

(** ** Errors *)

(** The Go [error] values the three functions can meet.  [Set] hands them to
    its caller; [New] and [Get] only test them against [nil]. *)
Inductive error : Type :=
  | PathError    (* os.OpenFile could not open or create the file *)
  | EOF          (* io.EOF: a read found no byte left *)
  | InvalidSeek  (* a seek to a negative position, or with an unknown whence *)
  | GobError.    (* encoding/gob refused to encode or to decode *)

(** A Go result pair [(v, err)]: the value when [err == nil], else the error. *)
Inductive result (A : Type) : Type :=
  | Ok (a : A)
  | Err (e : error).
Arguments Ok {A} a.
Arguments Err {A} e.

(** ** [bytes.Buffer] *)

(** A buffer is its unread bytes. *)
Definition Buffer : Type := list byte.

(** [bytes.NewBuffer(b)] *)
Definition bytes_NewBuffer (b : list byte) : Buffer := b.

(** [cb.Write(p)], the call an encoder created by [gob.NewEncoder(cb)] makes. *)
Definition Buffer_Write (cb : Buffer) (p : list byte) : Buffer := cb ++ p.

(** [cb.Len()]: the number of unread bytes. *)
Definition Buffer_Len (cb : Buffer) : Z := Z.of_nat (length cb).

(** ** [os]: the file system and open files *)

(** What a path names.  A path absent from the map names nothing yet and
    can be created.  [Unreachable] stands for a path that cannot be resolved
    (its directory is missing or may not be entered): opening, creating and
    removing it all fail. *)
Inductive node : Type :=
  | Regular (data : list byte)
  | Unreachable.

Abbreviation FS := (gmap string node).

(** An open [*os.File]: the path it was opened on and its read/write offset. *)
Record File : Type := mkFile { f_name : string; f_off : Z }.

(** The bytes of the file behind an open descriptor. *)
Definition File_data (f : File) (fs : FS) : list byte :=
  match fs !! f_name f with
  | Some (Regular d) => d
  | _ => []
  end.

(** The bytes from the descriptor's offset to the end of the file. *)
Definition File_rest (f : File) (fs : FS) : list byte :=
  drop (Z.to_nat (f_off f)) (File_data f fs).

(** [os.OpenFile(name, os.O_CREATE|os.O_RDWR, 0644)], the one way the package
    opens a file: an existing file is opened as it is, a missing one is
    created empty; the offset starts at 0. *)
Definition os_OpenFile (name : string) (fs : FS) : FS * result File :=
  match fs !! name with
  | None => (<[name := Regular []]> fs, Ok (mkFile name 0))
  | Some (Regular _) => (fs, Ok (mkFile name 0))
  | Some Unreachable => (fs, Err PathError)
  end.

(** [os.Remove(name)]; its error is dropped by the only caller. *)
Definition os_Remove (name : string) (fs : FS) : FS :=
  match fs !! name with
  | Some (Regular _) => delete name fs
  | _ => fs
  end.

(** [file.Read(b)]: fills a prefix of [b] from the offset on and advances the
    offset.  An empty [b] reads nothing and is no error; otherwise reading
    nothing is [io.EOF]. *)
Definition File_Read (f : File) (b : list byte) (fs : FS)
  : result (File * list byte) :=
  let got := take (length b) (File_rest f fs) in
  match b, got with
  | [], _ => Ok (f, b)
  | _ :: _, [] => Err EOF
  | _ :: _, _ :: _ =>
      Ok (mkFile (f_name f) (f_off f + Z.of_nat (length got)),
          got ++ drop (length got) b)
  end.

(** [file.Seek(offset, whence)] for whence 0 (from the start), 1 (from the
    current offset) and 2 (from the end). *)
Definition File_Seek (f : File) (offset : Z) (whence : Z) (fs : FS)
  : result File :=
  let base :=
    if whence =? 0 then Some 0
    else if whence =? 1 then Some (f_off f)
    else if whence =? 2 then Some (Z.of_nat (length (File_data f fs)))
    else None in
  match base with
  | None => Err InvalidSeek
  | Some b =>
      if b + offset <? 0 then Err InvalidSeek
      else Ok (mkFile (f_name f) (b + offset))
  end.

(** The file after [p] is written at position [off]: a hole before [off] reads
    as zeros, bytes under [p] are replaced, bytes after it stay. *)
Definition write_at (off : nat) (p : list byte) (d : list byte) : list byte :=
  take off d ++ make_bytes (off - length d) ++ p ++ drop (off + length p) d.

(** [file.Truncate(size)]; its error is dropped by the only caller. *)
Definition File_Truncate (f : File) (size : Z) (fs : FS) : FS :=
  match fs !! f_name f with
  | Some (Regular d) =>
      let n := Z.to_nat size in
      <[f_name f := Regular (take n d ++ make_bytes (n - length d))]> fs
  | _ => fs
  end.

(** [file.Write(p)]: writes at the offset and advances it. *)
Definition File_Write (f : File) (p : list byte) (fs : FS) : FS * result File :=
  match fs !! f_name f with
  | Some (Regular d) =>
      (<[f_name f := Regular (write_at (Z.to_nat (f_off f)) p d)]> fs,
       Ok (mkFile (f_name f) (f_off f + Z.of_nat (length p))))
  | _ => (fs, Err PathError)
  end.

(** [file.ReadFrom(cb)] for a [*bytes.Buffer] [cb]: the copy goes through
    [cb.WriteTo(file)], which writes every unread byte of the buffer to the file
    and leaves the buffer empty. *)
Definition File_ReadFrom (f : File) (cb : Buffer) (fs : FS)
  : FS * Buffer * result File :=
  match File_Write f cb fs with
  | (fs', Ok f') => (fs', [], Ok f')
  | (fs', Err e) => (fs', cb, Err e)
  end.

(** ** [time] *)

(** An instant ([time.Time]) and a duration ([time.Duration]), both counted in
    nanoseconds. *)
Definition time_Time : Type := Z.
Definition time_Duration : Type := Z.

(** [t.Add(d)] *)
Definition time_Add (t : time_Time) (d : time_Duration) : time_Time := t + d.

(** [t.Before(u)] *)
Definition time_Before (t u : time_Time) : bool := t <? u.

(** ** The handle *)

(** [type Cache[T any] struct].  The [lock] field is a mutex taken on entry to
    [Set] and [Get] and released on every return; in a sequential run it is
    free at each call and is left out of the state.  [encoding/gob] skips it
    too, as it is unexported. *)
Record Cache : Type := mkCache {
  Identifier : string;
  Expire : bool;
  Expiry : time_Time;
}.

(** ** [encoding/gob] *)

(** What decoding a transmitted handle [sent] into a receiver [recv] leaves in
    the receiver.  The package documentation states both halves: a struct field
    that holds the zero value of its type is omitted from the transmission, and
    a field of the receiver that is missing from the transmitted value is left
    as it is.  So an empty [Identifier] and a false [Expire] do not overwrite
    the receiver's.  [Expiry] is always transmitted: every instant the package
    stores comes from [time.Now().Add(_)] or from an earlier decode, never the
    zero [time.Time]. *)
Definition gob_merge (sent recv : Cache) : Cache :=
  {| Identifier := if decide (Identifier sent = "") then Identifier recv
                   else Identifier sent;
     Expire := if Expire sent then true else Expire recv;
     Expiry := Expiry sent |}.

(** The gob codec for handles and for slices of [T], as far as the package
    relies on it:
    - [gob_Encode_Cache c] is what [gob.NewEncoder(w).Encode(c)] writes to [w],
      or its error;
    - [gob_Decode_Cache bs c] is the receiver after
      [gob.NewDecoder(bytes.NewBuffer(bs)).Decode(c)], or its error;
    - [gob_Encode_items items] is what [gob.NewEncoder(w).Encode(items)] wrote
      to [w] when it returned, and the error it returned ([None] for [nil]);
    - [gob_Decode_items bs] is the slice after decoding from a reader that
      yields [bs] into an empty slice, or the error.
    The two laws say that decoding reads back what encoding wrote: for handles
    up to the omission of zero fields, for items exactly (so [T] is taken to be
    a type whose values gob transmits faithfully). *)
Class Gob (T : Type) : Type := {
  gob_Encode_Cache : Cache -> result (list byte);
  gob_Decode_Cache : list byte -> Cache -> result Cache;
  gob_Encode_items : list T -> list byte * option error;
  gob_Decode_items : list byte -> result (list T);
  gob_Cache_roundtrip : forall sent bs recv,
    gob_Encode_Cache sent = Ok bs ->
    gob_Decode_Cache bs recv = Ok (gob_merge sent recv);
  gob_items_roundtrip : forall items bs,
    gob_Encode_items items = (bs, None) ->
    gob_Decode_items bs = Ok items;
}.

(** ** The package *)

Section Package.

Context {T : Type} {codec : Gob T}.

(** [var Location string]: the storage directory, set by the application. *)
Variable Location : string.

(** [path.Join(Location, id)]: any function of the two strings serves. *)
Variable path_Join : string -> string -> string.

(** [func New[T any](id string, expiry time.Duration) *Cache[T]], run when the
    clock reads [now].  [None] is the [nil] pointer. *)
Definition New (id : string) (expiry : time_Duration) (now : time_Time)
    (fs : FS) : FS * option Cache :=
  let c := {| Identifier := id;
              Expire := negb (expiry =? 0);
              Expiry := time_Add now expiry |} in
  let hb := make_bytes 4 in
  match os_OpenFile (path_Join Location (Identifier c)) fs with
  | (fs, Err _) => (fs, None)
  | (fs, Ok file) =>
  match File_Read file hb fs with
  | Err _ => (fs, Some c)
  | Ok (file, hb) =>
  let hlen := LittleEndian_Uint32 hb in
  let cb := make_bytes (Z.to_nat hlen) in
  match File_Seek file 4 0 fs with
  | Err _ => (fs, Some c)
  | Ok file =>
  match File_Read file cb fs with
  | Err _ => (fs, Some c)
  | Ok (file, cb) =>
  let cbytes := bytes_NewBuffer cb in
  match gob_Decode_Cache cbytes c with
  | Err _ => (fs, None)
  | Ok c => (fs, Some c)
  end end end end end.

(** [func (c *Cache[T]) Set(items *[]T) (err error)].  The handle is returned
    beside the file system because [c] is a pointer receiver; [None] is the
    [nil] error. *)
Definition Set_ (c : Cache) (items : list T) (fs : FS)
  : Cache * FS * option error :=
  let cb := bytes_NewBuffer [] in
  match gob_Encode_Cache c with
  | Err e => (c, fs, Some e)
  | Ok enc =>
  let cb := Buffer_Write cb enc in
  let hl := uint32 (Buffer_Len cb) in
  let hlb := LittleEndian_PutUint32 hl in
  match os_OpenFile (path_Join Location (Identifier c)) fs with
  | (fs, Err e) => (c, fs, Some e)
  | (fs, Ok file) =>
  let fs := File_Truncate file 0 fs in
  match File_Write file hlb fs with
  | (fs, Err e) => (c, fs, Some e)
  | (fs, Ok file) =>
  match File_Seek file 4 0 fs with
  | Err e => (c, fs, Some e)
  | Ok file =>
  match File_ReadFrom file cb fs with
  | (fs, cb, Err e) => (c, fs, Some e)
  | (fs, cb, Ok file) =>
  match File_Seek file (Buffer_Len cb) 1 fs with
  | Err e => (c, fs, Some e)
  | Ok file =>
  match gob_Encode_items items with
  | (enc, Some e) => (c, fst (File_Write file enc fs), Some e)
  | (enc, None) =>
  match File_Write file enc fs with
  | (fs, Err e) => (c, fs, Some e)
  | (fs, Ok _) => (c, fs, None)
  end end end end end end end end.

(** [func (c *Cache[T]) Get() (items *[]T)], run when the clock reads [now].
    [None] is the [nil] pointer. *)
Definition Get (c : Cache) (now : time_Time) (fs : FS)
  : Cache * FS * option (list T) :=
  if time_Before (Expiry c) now && Expire c then
    (c, os_Remove (path_Join Location (Identifier c)) fs, None)
  else
  match os_OpenFile (path_Join Location (Identifier c)) fs with
  | (fs, Err _) => (c, fs, None)
  | (fs, Ok file) =>
  let hb := make_bytes 4 in
  match File_Read file hb fs with
  | Err _ => (c, fs, None)
  | Ok (file, hb) =>
  match File_Seek file 4 0 fs with
  | Err _ => (c, fs, None)
  | Ok file =>
  let offset := LittleEndian_Uint32 hb in
  match File_Seek file offset 1 fs with
  | Err _ => (c, fs, None)
  | Ok file =>
  match gob_Decode_items (File_rest file fs) with
  | Err _ => (c, fs, None)
  | Ok items => (c, fs, Some items)
  end end end end end.

(** The path of a handle's backing file, as all three functions compute it. *)
Definition backing (c : Cache) : string := path_Join Location (Identifier c).

(** The ways a [Get] on handle [c] at instant [now] can fail, one for each
    [return nil] of the function, in the order they stand there. *)
Inductive Get_fails (c : Cache) (now : time_Time) (fs : FS) : Prop :=
  | fails_expired :
      time_Before (Expiry c) now && Expire c = true ->
      Get_fails c now fs
  | fails_open (fs1 : FS) (e : error) :
      os_OpenFile (backing c) fs = (fs1, Err e) ->
      Get_fails c now fs
  | fails_header (fs1 : FS) (f0 : File) (e : error) :
      os_OpenFile (backing c) fs = (fs1, Ok f0) ->
      File_Read f0 (make_bytes 4) fs1 = Err e ->
      Get_fails c now fs
  | fails_seek_header (fs1 : FS) (f0 f1 : File) (hb : list byte) (e : error) :
      os_OpenFile (backing c) fs = (fs1, Ok f0) ->
      File_Read f0 (make_bytes 4) fs1 = Ok (f1, hb) ->
      File_Seek f1 4 0 fs1 = Err e ->
      Get_fails c now fs
  | fails_seek_offset (fs1 : FS) (f0 f1 f2 : File) (hb : list byte) (e : error) :
      os_OpenFile (backing c) fs = (fs1, Ok f0) ->
      File_Read f0 (make_bytes 4) fs1 = Ok (f1, hb) ->
      File_Seek f1 4 0 fs1 = Ok f2 ->
      File_Seek f2 (LittleEndian_Uint32 hb) 1 fs1 = Err e ->
      Get_fails c now fs
  | fails_decode (fs1 : FS) (f0 f1 f2 f3 : File) (hb : list byte) (e : error) :
      os_OpenFile (backing c) fs = (fs1, Ok f0) ->
      File_Read f0 (make_bytes 4) fs1 = Ok (f1, hb) ->
      File_Seek f1 4 0 fs1 = Ok f2 ->
      File_Seek f2 (LittleEndian_Uint32 hb) 1 fs1 = Ok f3 ->
      gob_Decode_items (File_rest f3 fs1) = Err e ->
      Get_fails c now fs.

End Package.

(** The layout of the backing file: the header holding the length of the
    metadata block, the block, the payload. *)
Definition file_image (meta payload : list byte) : list byte :=
  LittleEndian_PutUint32 (uint32 (Buffer_Len meta)) ++ meta ++ payload.

(** The test [c.Expiry.Before(time.Now()) && c.Expire] of [Get]. *)
Definition expired (c : Cache) (now : time_Time) : bool :=
  time_Before (Expiry c) now && Expire c.

(** ** A reference codec

    One codec that obeys the laws of [Gob], for slices of integers.  It keeps
    gob's shape for a struct value (fields in order, each announced by a tag,
    zero-valued fields left out, a closing zero byte) with a plain encoding of
    numbers: binary digits, least significant first, one per byte, closed by
    the byte 2.  It serves to run the package on concrete files. *)
Module Wire.

Fixpoint put_pos (p : positive) : list byte :=
  match p with
  | xH => [ "002"%byte ]
  | xO q => "000"%byte :: put_pos q
  | xI q => "001"%byte :: put_pos q
  end.

Fixpoint get_pos (bs : list byte) : option (positive * list byte) :=
  match bs with
  | "000"%byte :: r =>
      match get_pos r with Some (q, r') => Some (xO q, r') | None => None end
  | "001"%byte :: r =>
      match get_pos r with Some (q, r') => Some (xI q, r') | None => None end
  | "002"%byte :: r => Some (xH, r)
  | _ => None
  end.

(** A sign byte (0 zero, 1 positive, 2 negative), then the magnitude. *)
Definition put_Z (z : Z) : list byte :=
  match z with
  | Z0 => [ "000"%byte ]
  | Zpos p => "001"%byte :: put_pos p
  | Zneg p => "002"%byte :: put_pos p
  end.

Definition get_Z (bs : list byte) : option (Z * list byte) :=
  match bs with
  | "000"%byte :: r => Some (Z0, r)
  | "001"%byte :: r =>
      match get_pos r with Some (p, r') => Some (Zpos p, r') | None => None end
  | "002"%byte :: r =>
      match get_pos r with Some (p, r') => Some (Zneg p, r') | None => None end
  | _ => None
  end.

(** A string: its length, then its bytes. *)
Definition put_string (s : string) : list byte :=
  let bs := String.list_byte_of_string s in
  put_Z (Z.of_nat (length bs)) ++ bs.

Definition get_string (bs : list byte) : option (string * list byte) :=
  match get_Z bs with
  | Some (n, r) =>
      if (0 <=? n) && (n <=? Z.of_nat (length r))
      then Some (String.string_of_list_byte (take (Z.to_nat n) r), drop (Z.to_nat n) r)
      else None
  | None => None
  end.

(** A handle: field 1 [Identifier] unless empty, field 2 [Expire] unless
    false, field 3 [Expiry], then the closing zero. *)
Definition put_Cache (c : Cache) : list byte :=
  (if decide (Identifier c = "") then []
   else "001"%byte :: put_string (Identifier c))
  ++ (if Expire c then [ "002"%byte; "001"%byte ] else [])
  ++ "003"%byte :: put_Z (Expiry c)
  ++ [ "000"%byte ].

(** Decoding into [recv]: a field that is present replaces the receiver's, a
    field that is absent leaves it. *)
Definition get_Cache (bs : list byte) (recv : Cache) : option Cache :=
  let r1 :=
    match bs with
    | "001"%byte :: r =>
        match get_string r with
        | Some (s, r') => Some (s, r')
        | None => None
        end
    | _ => Some (Identifier recv, bs)
    end in
  match r1 with
  | None => None
  | Some (id, bs) =>
  let r2 :=
    match bs with
    | "002"%byte :: "001"%byte :: r => Some (true, r)
    | "002"%byte :: "000"%byte :: r => Some (false, r)
    | "002"%byte :: _ => None
    | _ => Some (Expire recv, bs)
    end in
  match r2 with
  | None => None
  | Some (ex, bs) =>
  match bs with
  | "003"%byte :: r =>
      match get_Z r with
      | Some (t, "000"%byte :: _) => Some (mkCache id ex t)
      | _ => None
      end
  | _ => None
  end end end.

(** A slice of integers: its length, then its elements. *)
Definition put_items (items : list Z) : list byte :=
  put_Z (Z.of_nat (length items)) ++ concat (map put_Z items).

Fixpoint get_list (n : nat) (bs : list byte) : option (list Z) :=
  match n with
  | O => Some []
  | S k =>
      match get_Z bs with
      | Some (z, r) =>
          match get_list k r with Some l => Some (z :: l) | None => None end
      | None => None
      end
  end.

Definition get_items (bs : list byte) : option (list Z) :=
  match get_Z bs with
  | Some (n, r) => if 0 <=? n then get_list (Z.to_nat n) r else None
  | None => None
  end.

Definition of_option {A : Type} (o : option A) : result A :=
  match o with
  | Some a => Ok a
  | None => Err GobError
  end.

Lemma get_put_pos (p : positive) (r : list byte) :
  get_pos (put_pos p ++ r) = Some (p, r).
Proof.
  induction p as [q IH | q IH |]; simpl; [rewrite IH | rewrite IH |]; reflexivity.
Qed.

Lemma get_put_Z (z : Z) (r : list byte) : get_Z (put_Z z ++ r) = Some (z, r).
Proof.
  destruct z as [| p | p]; simpl; [| rewrite get_put_pos ..]; reflexivity.
Qed.

Lemma get_put_string (s : string) (r : list byte) :
  get_string (put_string s ++ r) = Some (s, r).
Proof.
  unfold get_string, put_string. rewrite <- app_assoc, get_put_Z.
  rewrite Nat2Z.id, length_app.
  replace ((0 <=? Z.of_nat (length (String.list_byte_of_string s)))
           && (Z.of_nat (length (String.list_byte_of_string s))
               <=? Z.of_nat (length (String.list_byte_of_string s) + length r)))
    with true
    by (symmetry; apply andb_true_intro; split; apply Z.leb_le; lia).
  rewrite take_app_length, drop_app_length,
    String.string_of_list_byte_of_string.
  reflexivity.
Qed.

Lemma get_put_list (items : list Z) (r : list byte) :
  get_list (length items) (concat (map put_Z items) ++ r) = Some items.
Proof.
  induction items as [| z l IH]; simpl; [reflexivity |].
  rewrite <- app_assoc, get_put_Z, IH. reflexivity.
Qed.

Lemma get_put_items (items : list Z) : get_items (put_items items) = Some items.
Proof.
  unfold get_items, put_items. rewrite get_put_Z, Nat2Z.id.
  replace (0 <=? Z.of_nat (length items)) with true
    by (symmetry; apply Z.leb_le; lia).
  rewrite <- (app_nil_r (concat _)). apply get_put_list.
Qed.

Lemma get_put_Cache (sent recv : Cache) :
  get_Cache (put_Cache sent) recv = Some (gob_merge sent recv).
Proof.
  destruct sent as [id ex t]. unfold get_Cache, put_Cache, gob_merge. simpl.
  destruct (decide (id = "")) as [-> | Hid]; destruct ex; simpl;
    rewrite ?get_put_string; simpl; rewrite ?get_put_Z; reflexivity.
Qed.

Lemma gob_Cache_law (sent : Cache) (bs : list byte) (recv : Cache) :
  Ok (put_Cache sent) = Ok bs ->
  of_option (get_Cache bs recv) = Ok (gob_merge sent recv).
Proof.
  intros [= <-]. rewrite get_put_Cache. reflexivity.
Qed.

Lemma gob_items_law (items : list Z) (bs : list byte) :
  (put_items items, @None error) = (bs, None) ->
  of_option (get_items bs) = Ok items.
Proof.
  intros [= <-]. rewrite get_put_items. reflexivity.
Qed.

#[global] Instance gob : Gob Z := {|
  gob_Encode_Cache c := Ok (put_Cache c);
  gob_Decode_Cache bs recv := of_option (get_Cache bs recv);
  gob_Encode_items items := (put_items items, None);
  gob_Decode_items bs := of_option (get_items bs);
  gob_Cache_roundtrip := gob_Cache_law;
  gob_items_roundtrip := gob_items_law;
|}.

(** The storage directory and the path join used to run the package. *)
Definition Location : string := "/var/cache".
Definition path_Join (dir name : string) : string := dir +:+ "/" +:+ name.

End Wire.

(** ** Facts about the modelled library calls *)

Lemma length_PutUint32 (v : Z) : length (LittleEndian_PutUint32 v) = 4%nat.
Proof. reflexivity. Qed.

Lemma write_at_end (p d : list byte) : write_at (length d) p d = d ++ p.
Proof.
  unfold write_at, make_bytes.
  rewrite take_ge, Nat.sub_diag, drop_ge by lia.
  simpl. rewrite app_nil_r. reflexivity.
Qed.

Lemma os_OpenFile_Regular (name : string) (fs : FS) (d : list byte) :
  fs !! name = Some (Regular d) ->
  os_OpenFile name fs = (fs, Ok (mkFile name 0)).
Proof. intros E. unfold os_OpenFile. rewrite E. reflexivity. Qed.

Lemma os_OpenFile_missing (name : string) (fs : FS) :
  fs !! name = None ->
  os_OpenFile name fs = (<[name := Regular []]> fs, Ok (mkFile name 0)).
Proof. intros E. unfold os_OpenFile. rewrite E. reflexivity. Qed.

Lemma os_OpenFile_Unreachable (name : string) (fs : FS) :
  fs !! name = Some Unreachable ->
  os_OpenFile name fs = (fs, Err PathError).
Proof. intros E. unfold os_OpenFile. rewrite E. reflexivity. Qed.

(** Opening gives a descriptor at offset 0 on a regular file; the only change
    to the file system is the creation of that file, empty, when it was
    missing. *)
Lemma os_OpenFile_Ok (name : string) (fs fs' : FS) (f : File) :
  os_OpenFile name fs = (fs', Ok f) ->
  f = mkFile name 0 /\
  ((exists d, fs !! name = Some (Regular d) /\ fs' = fs) \/
   (fs !! name = None /\ fs' = <[name := Regular []]> fs)).
Proof.
  unfold os_OpenFile. destruct (fs !! name) as [[d |] |] eqn:E; intros [= <- <-].
  - split; [reflexivity |]. left. eauto.
  - split; [reflexivity |]. right. eauto.
Qed.

Lemma os_OpenFile_Err (name : string) (fs fs' : FS) (e : error) :
  os_OpenFile name fs = (fs', Err e) ->
  fs !! name = Some Unreachable /\ fs' = fs.
Proof.
  unfold os_OpenFile. destruct (fs !! name) as [[d |] |] eqn:E; intros [= <-].
  split; reflexivity.
Qed.

Lemma File_data_lookup (f : File) (fs : FS) (d : list byte) :
  fs !! f_name f = Some (Regular d) -> File_data f fs = d.
Proof. intros E. unfold File_data. rewrite E. reflexivity. Qed.

Lemma File_Write_Regular (f : File) (p d : list byte) (fs : FS) :
  fs !! f_name f = Some (Regular d) ->
  File_Write f p fs =
    (<[f_name f := Regular (write_at (Z.to_nat (f_off f)) p d)]> fs,
     Ok (mkFile (f_name f) (f_off f + Z.of_nat (length p)))).
Proof. intros E. unfold File_Write. rewrite E. reflexivity. Qed.

Lemma File_Truncate_zero (f : File) (d : list byte) (fs : FS) :
  fs !! f_name f = Some (Regular d) ->
  File_Truncate f 0 fs = <[f_name f := Regular []]> fs.
Proof. intros E. unfold File_Truncate. rewrite E. reflexivity. Qed.

(** Reading [n > 0] bytes where at least [n] are left returns exactly those. *)
Lemma File_Read_full (f : File) (fs : FS) (n : nat) (pre post : list byte) :
  File_rest f fs = pre ++ post ->
  length pre = n -> (0 < n)%nat ->
  File_Read f (make_bytes n) fs =
    Ok (mkFile (f_name f) (f_off f + Z.of_nat n), pre).
Proof.
  intros Hrest Hlen Hpos. unfold File_Read, make_bytes.
  rewrite Hrest, length_replicate, <- Hlen, take_app_length.
  destruct pre as [| b pre']; [simpl in Hlen; lia |].
  destruct n as [| k]; [lia |]. simpl replicate. cbv iota beta.
  rewrite drop_ge by (simpl; rewrite length_replicate; simpl in Hlen; lia).
  rewrite app_nil_r. reflexivity.
Qed.

(** Reading into an empty slice succeeds and reads nothing. *)
Lemma File_Read_empty (f : File) (fs : FS) :
  File_Read f (make_bytes 0) fs = Ok (f, []).
Proof. reflexivity. Qed.

(** On an empty slice or on a file with nothing left, and only then, a read of
    four bytes fails. *)
Lemma File_Read_EOF (f : File) (fs : FS) (n : nat) :
  File_rest f fs = [] -> (0 < n)%nat ->
  File_Read f (make_bytes n) fs = Err EOF.
Proof.
  intros Hrest Hpos. unfold File_Read. rewrite Hrest, take_nil.
  destruct n; [lia | reflexivity].
Qed.

(** A read that finds fewer bytes than the slice holds fills a prefix and
    leaves the rest of the slice zero. *)
Lemma File_Read_short (f : File) (fs : FS) (n : nat) (data : list byte) :
  File_rest f fs = data ->
  (0 < length data <= n)%nat ->
  File_Read f (make_bytes n) fs =
    Ok (mkFile (f_name f) (f_off f + Z.of_nat (length data)),
        data ++ make_bytes (n - length data)).
Proof.
  intros Hrest Hlen. unfold File_Read, make_bytes.
  rewrite Hrest, length_replicate, take_ge by lia.
  destruct data as [| b data']; [simpl in Hlen; lia |].
  destruct n as [| k]; [lia |]. simpl replicate. cbv iota beta.
  f_equal. f_equal. f_equal.
  change ("000"%byte :: replicate k "000"%byte) with (replicate (S k) "000"%byte).
  rewrite drop_replicate. reflexivity.
Qed.

(** A read of four bytes fails only when nothing is left to read. *)
Lemma File_Read_header_Err (f : File) (fs : FS) (e : error) :
  File_Read f (make_bytes 4) fs = Err e -> File_rest f fs = [].
Proof.
  unfold File_Read, make_bytes. simpl replicate. cbv zeta.
  destruct (File_rest f fs) as [| b r]; [reflexivity |].
  simpl. discriminate.
Qed.

Lemma File_Seek_start (f : File) (off : Z) (fs : FS) :
  0 <= off -> File_Seek f off 0 fs = Ok (mkFile (f_name f) off).
Proof.
  intros H. unfold File_Seek. simpl. rewrite Z.add_0_l.
  destruct (Z.ltb_spec off 0); [lia | reflexivity].
Qed.

Lemma File_Seek_current (f : File) (off : Z) (fs : FS) :
  0 <= f_off f + off ->
  File_Seek f off 1 fs = Ok (mkFile (f_name f) (f_off f + off)).
Proof.
  intros H. unfold File_Seek. simpl.
  destruct (Z.ltb_spec (f_off f + off) 0); [lia | reflexivity].
Qed.

Lemma uint32_small (n : Z) : 0 <= n < 2 ^ 32 -> uint32 n = n.
Proof. intros H. unfold uint32. apply Z.mod_small. exact H. Qed.

Lemma LittleEndian_Uint32_nonneg (b : list byte) : 0 <= LittleEndian_Uint32 b.
Proof.
  unfold LittleEndian_Uint32.
  destruct b as [| b0 [| b1 [| b2 [| b3 r]]]]; try lia.
  pose proof (Z_of_byte_range b0). pose proof (Z_of_byte_range b1).
  pose proof (Z_of_byte_range b2). pose proof (Z_of_byte_range b3).
  repeat (apply Z.lor_nonneg; split); try apply Z.shiftl_nonneg; lia.
Qed.

Lemma expired_true (c : Cache) (now : time_Time) :
  expired c now = true <-> Expire c = true /\ Expiry c < now.
Proof.
  unfold expired, time_Before. rewrite andb_true_iff, Z.ltb_lt. tauto.
Qed.

Lemma expired_false (c : Cache) (now : time_Time) :
  expired c now = false <-> Expire c = false \/ now <= Expiry c.
Proof.
  unfold expired, time_Before. rewrite andb_false_iff, Z.ltb_ge. tauto.
Qed.

(** The file system after [os.Remove] holds no regular file at the path. *)
Lemma os_Remove_gone (name : string) (fs : FS) (d : list byte) :
  os_Remove name fs !! name <> Some (Regular d).
Proof.
  unfold os_Remove. destruct (fs !! name) as [[d' |] |] eqn:E.
  - rewrite lookup_delete_eq. discriminate.
  - rewrite E. discriminate.
  - rewrite E. discriminate.
Qed.

Lemma os_Remove_Regular (name : string) (fs : FS) (d : list byte) :
  fs !! name = Some (Regular d) -> os_Remove name fs = delete name fs.
Proof. intros E. unfold os_Remove. rewrite E. reflexivity. Qed.

(** ** Facts about the package *)

Section Facts.

Context {T : Type} {codec : Gob T}.
Variable Location : string.
Variable path_Join : string -> string -> string.

Local Abbreviation Open := (New Location path_Join).
Local Abbreviation Save := (Set_ Location path_Join).
Local Abbreviation Load := (Get Location path_Join).
Local Abbreviation path_of := (backing Location path_Join).

(** A [Set] that returns [nil] encoded the handle and the items and left the
    backing file holding exactly the header, the metadata block and the
    payload; nothing else in the file system changed. *)
Lemma Set__Ok (c c' : Cache) (items : list T) (fs fs' : FS) :
  Save c items fs = (c', fs', None) ->
  exists meta payload,
    gob_Encode_Cache c = Ok meta /\
    gob_Encode_items items = (payload, None) /\
    c' = c /\
    fs' = <[path_of c := Regular (file_image meta payload)]> fs.
Proof.
  unfold Set_, backing.
  set (p := path_Join Location (Identifier c)).
  destruct (gob_Encode_Cache c) as [meta | e]; [| discriminate].
  destruct (os_OpenFile p fs) as [fs1 [f |e]] eqn:Hopen; [| discriminate].
  apply os_OpenFile_Ok in Hopen as [-> Hfs1].
  assert (Hl1 : exists d, fs1 !! p = Some (Regular d) /\
                          forall x, <[p := x]> fs1 = <[p := x]> fs).
  { destruct Hfs1 as [(d & Hd & ->) | (Hd & ->)].
    - eauto.
    - exists []. rewrite lookup_insert_eq. split; [reflexivity |].
      intros x. apply insert_insert_eq. }
  destruct Hl1 as (d & Hd & Hins). clear Hfs1.
  rewrite (File_Truncate_zero _ d) by exact Hd.
  rewrite (File_Write_Regular _ _ []) by (simpl; apply lookup_insert_eq).
  cbn [f_name f_off]. rewrite insert_insert_eq.
  rewrite File_Seek_start by lia.
  unfold File_ReadFrom, bytes_NewBuffer, Buffer_Write.
  rewrite (File_Write_Regular _ _ (LittleEndian_PutUint32 (uint32 (Buffer_Len ([] ++ meta)))))
    by (simpl; apply lookup_insert_eq).
  cbn [f_name f_off]. rewrite insert_insert_eq.
  rewrite File_Seek_current by (unfold Buffer_Len; cbn [f_off]; lia).
  cbn [f_name f_off].
  destruct (gob_Encode_items items) as [payload [e |]]; [discriminate |].
  erewrite File_Write_Regular by (simpl; apply lookup_insert_eq).
  cbn [f_name f_off]. rewrite insert_insert_eq.
  intros [= <- <-]. exists meta, payload.
  repeat split. rewrite Hins. f_equal. f_equal.
  unfold file_image. set (hlb := LittleEndian_PutUint32 _).
  change (Z.to_nat 4) with (length hlb). rewrite write_at_end.
  replace (Z.to_nat (4 + Z.of_nat (length meta) + Buffer_Len []))
    with (length (hlb ++ meta))
    by (rewrite length_app; unfold Buffer_Len; simpl; lia).
  rewrite write_at_end, <- app_assoc. reflexivity.
Qed.

(** The header of a laid-out file reads back as the length of the block. *)
Lemma header_of_image (meta payload : list byte) :
  Buffer_Len meta < 2 ^ 32 ->
  LittleEndian_Uint32 (LittleEndian_PutUint32 (uint32 (Buffer_Len meta)))
    = Buffer_Len meta.
Proof.
  intros Hfit. rewrite LittleEndian_Uint32_PutUint32.
  assert (0 <= Buffer_Len meta < 2 ^ 32) by (unfold Buffer_Len in *; lia).
  rewrite (uint32_small (Buffer_Len meta)) by assumption.
  apply uint32_small. assumption.
Qed.

(** [Get] on a laid-out file, by a handle that has not expired: the header is
    read, the metadata block is skipped, and the payload is what the decoder
    is given. *)
Lemma Get_image (c : Cache) (now : time_Time) (fs : FS)
    (meta payload : list byte) :
  fs !! path_of c = Some (Regular (file_image meta payload)) ->
  Buffer_Len meta < 2 ^ 32 ->
  expired c now = false ->
  Load c now fs =
    (c, fs, match gob_Decode_items payload with
            | Ok items => Some items
            | Err _ => None
            end).
Proof.
  intros Hfile Hfit Hlive. unfold Get, backing in *. fold (expired c now).
  rewrite Hlive. set (p := path_Join Location (Identifier c)) in *.
  rewrite (os_OpenFile_Regular _ _ _ Hfile).
  set (hlb := LittleEndian_PutUint32 (uint32 (Buffer_Len meta))).
  assert (Hdata : File_data (mkFile p 0) fs = hlb ++ meta ++ payload)
    by (apply File_data_lookup; exact Hfile).
  rewrite (File_Read_full _ _ 4 hlb (meta ++ payload));
    [| unfold File_rest; rewrite Hdata; reflexivity | reflexivity | lia].
  cbn [f_name f_off].
  rewrite File_Seek_start by lia.
  subst hlb. rewrite header_of_image by assumption.
  rewrite File_Seek_current by (unfold Buffer_Len; cbn [f_off]; lia).
  cbn [f_name f_off].
  replace (File_rest (mkFile p (4 + Buffer_Len meta)) fs) with payload.
  - destruct (gob_Decode_items payload); reflexivity.
  - unfold File_rest.
    replace (File_data _ fs)
      with ((LittleEndian_PutUint32 (uint32 (Buffer_Len meta)) ++ meta) ++ payload)
      by (rewrite <- app_assoc; symmetry; exact Hdata).
    cbn [f_off].
    replace (Z.to_nat (4 + Buffer_Len meta))
      with (length (LittleEndian_PutUint32 (uint32 (Buffer_Len meta)) ++ meta))
      by (rewrite length_app; unfold Buffer_Len; simpl; lia).
    rewrite drop_app_length. reflexivity.
Qed.

(** [New] on a laid-out file: the metadata block, and nothing else, is what
    the decoder is given, with the freshly built handle as receiver. *)
Lemma New_image (id : string) (d : time_Duration) (now : time_Time) (fs : FS)
    (meta payload : list byte) :
  fs !! path_Join Location id = Some (Regular (file_image meta payload)) ->
  Buffer_Len meta < 2 ^ 32 ->
  Open id d now fs =
    (fs, match gob_Decode_Cache meta
                 (mkCache id (negb (d =? 0)) (time_Add now d)) with
         | Ok c => Some c
         | Err _ => None
         end).
Proof.
  intros Hfile Hfit. unfold New. cbn [Identifier].
  set (p := path_Join Location id) in *.
  rewrite (os_OpenFile_Regular _ _ _ Hfile).
  set (hlb := LittleEndian_PutUint32 (uint32 (Buffer_Len meta))).
  assert (Hdata : File_data (mkFile p 0) fs = hlb ++ meta ++ payload)
    by (apply File_data_lookup; exact Hfile).
  rewrite (File_Read_full _ _ 4 hlb (meta ++ payload));
    [| unfold File_rest; rewrite Hdata; reflexivity | reflexivity | lia].
  cbn [f_name f_off].
  rewrite File_Seek_start by lia.
  cbn [f_name f_off].
  subst hlb. rewrite header_of_image by assumption.
  unfold Buffer_Len. rewrite Nat2Z.id.
  assert (Hrest : File_rest (mkFile p 4) fs = meta ++ payload).
  { unfold File_rest.
    replace (File_data _ fs)
      with (LittleEndian_PutUint32 (uint32 (Buffer_Len meta)) ++ meta ++ payload)
      by (symmetry; exact Hdata).
    reflexivity. }
  destruct (Nat.eq_dec (length meta) 0) as [Hz | Hnz].
  - rewrite Hz, File_Read_empty. apply nil_length_inv in Hz. subst meta.
    unfold bytes_NewBuffer.
    destruct (gob_Decode_Cache [] _); reflexivity.
  - rewrite (File_Read_full _ _ (length meta) meta payload Hrest) by lia.
    unfold bytes_NewBuffer.
    destruct (gob_Decode_Cache meta _); reflexivity.
Qed.

(** [Set] and [Get] hand back the handle they were given, on every path. *)
Lemma Set__handle (c : Cache) (items : list T) (fs : FS) :
  fst (fst (Save c items fs)) = c.
Proof.
  unfold Set_.
  destruct (gob_Encode_Cache c); [| reflexivity].
  destruct (os_OpenFile _ fs) as [fs1 [f0 | e]]; [| reflexivity].
  destruct (File_Write f0 _ _) as [fs2 [f1 | e]]; [| reflexivity].
  destruct (File_Seek f1 4 0 fs2) as [f2 | e]; [| reflexivity].
  destruct (File_ReadFrom f2 _ fs2) as [[fs3 cb] [f3 | e]]; [| reflexivity].
  destruct (File_Seek f3 _ 1 fs3) as [f4 | e]; [| reflexivity].
  destruct (gob_Encode_items items) as [enc [e |]]; [reflexivity |].
  destruct (File_Write f4 enc fs3) as [fs4 [f5 | e]]; reflexivity.
Qed.

Lemma Get_handle (c : Cache) (now : time_Time) (fs : FS) :
  fst (fst (Load c now fs)) = c.
Proof.
  unfold Get.
  destruct (time_Before (Expiry c) now && Expire c); [reflexivity |].
  destruct (os_OpenFile _ fs) as [fs1 [f0 | e]]; [| reflexivity].
  destruct (File_Read f0 _ fs1) as [[f1 hb] | e]; [| reflexivity].
  destruct (File_Seek f1 4 0 fs1) as [f2 | e]; [| reflexivity].
  destruct (File_Seek f2 _ 1 fs1) as [f3 | e]; [| reflexivity].
  destruct (gob_Decode_items _) as [items | e]; reflexivity.
Qed.

(** A handle whose expiry has passed: [Get] removes the backing file and
    returns [nil], whatever the file holds. *)
Lemma Get_expired (c : Cache) (now : time_Time) (fs : FS) :
  expired c now = true ->
  Load c now fs = (c, os_Remove (path_of c) fs, None).
Proof.
  intros H. unfold Get. fold (expired c now). rewrite H. reflexivity.
Qed.

(** Saving and then loading through a handle that has not expired. *)
Lemma Set_then_Get (c c' : Cache) (items : list T) (fs fs' : FS)
    (meta : list byte) (now : time_Time) :
  Save c items fs = (c', fs', None) ->
  gob_Encode_Cache c = Ok meta ->
  Buffer_Len meta < 2 ^ 32 ->
  expired c now = false ->
  Load c' now fs' = (c', fs', Some items).
Proof.
  intros Hset Hmeta Hfit Hlive.
  apply Set__Ok in Hset as (meta' & payload & Hmeta' & Hpay & -> & ->).
  rewrite Hmeta in Hmeta'. injection Hmeta' as <-.
  rewrite (Get_image c now _ meta payload); try assumption.
  - rewrite (gob_items_roundtrip _ _ Hpay). reflexivity.
  - apply lookup_insert_eq.
Qed.

(** [New] on an identifier whose file is missing or empty returns the handle
    built from its arguments; a missing file is created, empty. *)
Lemma New_fresh (id : string) (d : time_Duration) (now : time_Time) (fs : FS) :
  fs !! path_Join Location id = None \/
  fs !! path_Join Location id = Some (Regular []) ->
  Open id d now fs =
    (fst (os_OpenFile (path_Join Location id) fs),
     Some (mkCache id (negb (d =? 0)) (time_Add now d))).
Proof.
  intros Hfresh. unfold New. cbn [Identifier].
  destruct Hfresh as [Hnone | Hempty].
  - rewrite (os_OpenFile_missing _ _ Hnone).
    rewrite File_Read_EOF; [reflexivity | | lia].
    unfold File_rest, File_data. cbn [f_name].
    rewrite lookup_insert_eq. reflexivity.
  - rewrite (os_OpenFile_Regular _ _ _ Hempty).
    rewrite File_Read_EOF; [reflexivity | | lia].
    unfold File_rest, File_data. cbn [f_name].
    rewrite Hempty. reflexivity.
Qed.

End Facts.

(** ** Running the package on the reference codec *)

Module Run.

Definition Open := New (codec := Wire.gob) Wire.Location Wire.path_Join.
Definition Save := Set_ (codec := Wire.gob) Wire.Location Wire.path_Join.
Definition Load := Get (codec := Wire.gob) Wire.Location Wire.path_Join.

(** The file system after a call, and what the call returned. *)
Definition fs_after {A B : Type} (r : A * FS * B) : FS := snd (fst r).
Definition returned {A B : Type} (r : A * FS * B) : B := snd r.

(** The backing file of identifier [a]. *)
Definition path_a : string := Wire.path_Join Wire.Location "a".

(** A handle on [a] that expires at instant 100, one that never expires, and
    the file system each leaves after saving to an empty directory. *)
Definition expiring : Cache := mkCache "a" true 100.
Definition lasting : Cache := mkCache "a" false 100.
Definition fs_expiring : FS := fs_after (Save expiring [1; 2] ∅).
Definition fs_lasting : FS := fs_after (Save lasting [1; 2; -3] ∅).

(** A directory where the path of [a] cannot be resolved, and one where the
    file of [a] announces a metadata block of one byte that is no gob. *)
Definition fs_unreachable : FS := {[ path_a := Unreachable ]}.
Definition fs_corrupt : FS :=
  {[ path_a := Regular [ "001"; "000"; "000"; "000"; "009" ]%byte ]}.

(** A file whose header and metadata block are sound and whose payload is no
    gob. *)
Definition fs_bad_payload : FS :=
  {[ path_a := Regular (file_image (Wire.put_Cache lasting) [ "007"%byte ]) ]}.

End Run.

(** ** The claims *)

Section Claims.

Context {T : Type} {codec : Gob T}.
Variable Location : string.
Variable path_Join : string -> string -> string.

Local Abbreviation Open := (New Location path_Join).
Local Abbreviation Save := (Set_ Location path_Join).
Local Abbreviation Load := (Get Location path_Join).
Local Abbreviation path_of := (backing Location path_Join).

(** C1, as amended.  [Open(id, d); Save(items); Load()] returns [items]
    whenever [Open] and [Save] succeed and the handle that [Open] returned has
    expiry disabled or an expiry instant that has not passed at the [Load].
    When the identifier's file was missing or empty at the [Open], the handle
    is the one built from [d], and the condition is: [d] is zero, or the
    [Load] comes no later than [d] after the [Open].  (The metadata block is
    taken to fit the 32-bit header.) *)
Theorem Open_Save_Load_roundtrip (id : string) (d : time_Duration)
    (now0 now1 : time_Time) (fs0 fs1 fs2 : FS) (c c' : Cache)
    (items : list T) (meta : list byte) :
  Open id d now0 fs0 = (fs1, Some c) ->
  Save c items fs1 = (c', fs2, None) ->
  gob_Encode_Cache c = Ok meta ->
  Buffer_Len meta < 2 ^ 32 ->
  ((Expire c = false \/ now1 <= Expiry c) ->
     Load c' now1 fs2 = (c', fs2, Some items)) /\
  ((fs0 !! path_Join Location id = None \/
    fs0 !! path_Join Location id = Some (Regular [])) ->
   (d = 0 \/ now1 <= time_Add now0 d) ->
     Load c' now1 fs2 = (c', fs2, Some items)).
Proof.
  intros Hopen Hset Hmeta Hfit.
  assert (Hlive : (Expire c = false \/ now1 <= Expiry c) ->
                  Load c' now1 fs2 = (c', fs2, Some items)).
  { intros H. apply (Set_then_Get _ _ c c' items fs1 fs2 meta now1); try assumption.
    exact (proj2 (expired_false c now1) H). }
  split; [exact Hlive |].
  intros Hfresh Hd. apply Hlive.
  assert (Hc : c = mkCache id (negb (d =? 0)) (time_Add now0 d)).
  { rewrite (New_fresh _ _ id d now0 fs0 Hfresh) in Hopen. congruence. }
  subst c. cbn [Expire Expiry].
  destruct Hd as [-> | Hd]; [left; reflexivity | right; exact Hd].
Qed.

(** C2.  After a [Set] that returned [nil], the backing file holds: in its
    first four bytes the little-endian length of the gob of the handle, then
    that gob, and from offset 4 + length on the gob of the items, with nothing
    in between.  (The length is taken to fit the 32-bit header.) *)
Theorem Set_layout_invariant (c c' : Cache) (items : list T) (fs fs' : FS)
    (meta : list byte) :
  Save c items fs = (c', fs', None) ->
  gob_Encode_Cache c = Ok meta ->
  Buffer_Len meta < 2 ^ 32 ->
  exists payload data,
    gob_Encode_items items = (payload, None) /\
    fs' !! path_of c = Some (Regular data) /\
    LittleEndian_Uint32 (take 4 data) = Buffer_Len meta /\
    take (length meta) (drop 4 data) = meta /\
    drop (4 + length meta) data = payload.
Proof.
  intros Hset Hmeta Hfit.
  apply Set__Ok in Hset as (meta' & payload & Hmeta' & Hpay & -> & ->).
  rewrite Hmeta in Hmeta'. injection Hmeta' as <-.
  exists payload, (file_image meta payload).
  split; [exact Hpay |]. split; [apply lookup_insert_eq |].
  unfold file_image.
  set (hlb := LittleEndian_PutUint32 (uint32 (Buffer_Len meta))).
  assert (Hlen : length hlb = 4%nat) by reflexivity.
  repeat split.
  - rewrite <- Hlen at 1. rewrite take_app_length.
    apply (header_of_image meta payload Hfit).
  - rewrite <- Hlen at 1. rewrite drop_app_length, take_app_length. reflexivity.
  - rewrite app_assoc.
    replace (4 + length meta)%nat with (length (hlb ++ meta))
      by (rewrite length_app, Hlen; reflexivity).
    apply drop_app_length.
Qed.

(** C3, as amended.  After [Save(A)] (whatever its outcome) and a [Save(B)]
    that succeeds on the same handle, the backing file is the image of the
    handle and [B] alone, and [Load()] returns exactly [B] when the handle has
    not expired at the [Load]; when it has, [Load()] returns absent.  (The
    metadata block is taken to fit the 32-bit header.) *)
Theorem Set_replaces (c cA cB : Cache) (A B : list T) (fs fsA fsB : FS)
    (eA : option error) (meta : list byte) :
  Save c A fs = (cA, fsA, eA) ->
  Save cA B fsA = (cB, fsB, None) ->
  gob_Encode_Cache c = Ok meta ->
  Buffer_Len meta < 2 ^ 32 ->
  (exists payload,
     gob_Encode_items B = (payload, None) /\
     fsB !! path_of c = Some (Regular (file_image meta payload))) /\
  (forall now, snd (Load cB now fsB) = if expired c now then None else Some B).
Proof.
  intros HA HB Hmeta Hfit.
  assert (HcA : cA = c).
  { pose proof (Set__handle Location path_Join c A fs) as H.
    rewrite HA in H. exact H. }
  subst cA.
  assert (HcB : cB = c).
  { pose proof (Set__handle Location path_Join c B fsA) as H.
    rewrite HB in H. exact H. }
  subst cB. split.
  - apply Set__Ok in HB as (meta' & payload & Hmeta' & Hpay & _ & ->).
    rewrite Hmeta in Hmeta'. injection Hmeta' as <-.
    exists payload. split; [exact Hpay | apply lookup_insert_eq].
  - intros now. destruct (expired c now) eqn:Hexp.
    + rewrite Get_expired by exact Hexp. reflexivity.
    + rewrite (Set_then_Get _ _ c c B fsA fsB meta now) by assumption.
      reflexivity.
Qed.

(** C4, what the code does.  [New] on a file that [Set] wrote for handle [c0]
    returns the freshly built handle overwritten by the transmitted fields of
    [c0] only.  A persisted [Expire = false] is a zero value, is not
    transmitted and does not overwrite: reopened with a non-zero duration, the
    handle has [Expire = true] (from the duration just passed) next to the
    persisted [Expiry]. *)
Theorem New_after_Set_merges (c0 c1 : Cache) (items : list T) (fs0 fs1 : FS)
    (meta : list byte) (id : string) (d : time_Duration) (now : time_Time) :
  Save c0 items fs0 = (c1, fs1, None) ->
  gob_Encode_Cache c0 = Ok meta ->
  Buffer_Len meta < 2 ^ 32 ->
  path_Join Location id = path_of c0 ->
  Open id d now fs1 =
    (fs1, Some (gob_merge c0 (mkCache id (negb (d =? 0)) (time_Add now d)))) /\
  (Expire c0 = false -> d <> 0 ->
   exists c, snd (Open id d now fs1) = Some c /\
             Expire c = true /\ Expiry c = Expiry c0).
Proof.
  intros Hset Hmeta Hfit Hpath.
  apply Set__Ok in Hset as (meta' & payload & Hmeta' & Hpay & _ & ->).
  rewrite Hmeta in Hmeta'. injection Hmeta' as <-.
  assert (Hopen : Open id d now (<[path_of c0 := Regular (file_image meta payload)]> fs0) =
    (<[path_of c0 := Regular (file_image meta payload)]> fs0,
     Some (gob_merge c0 (mkCache id (negb (d =? 0)) (time_Add now d))))).
  { rewrite (New_image _ _ id d now _ meta payload).
    - rewrite (gob_Cache_roundtrip _ _ _ Hmeta). reflexivity.
    - rewrite Hpath. apply lookup_insert_eq.
    - exact Hfit. }
  split; [exact Hopen |].
  intros Hex Hd. eexists. rewrite Hopen. split; [reflexivity |].
  unfold gob_merge. cbn [Expire Expiry]. rewrite Hex.
  split; [| reflexivity].
  destruct (Z.eqb_spec d 0); [contradiction | reflexivity].
Qed.

(** C5.  Every failure on the path of [Get] (detected expiry, a file that
    cannot be opened, a header that cannot be read, a failed seek, a payload
    that does not decode) ends in the same result, the [nil] pointer: the
    result carries no error, so the caller cannot tell the failures apart. *)
Theorem Get_failure_is_absent (c : Cache) (now : time_Time) (fs : FS) :
  Get_fails Location path_Join c now fs ->
  snd (Load c now fs) = None.
Proof.
  intros [Hexp | fs1 e Ho | fs1 f0 e Ho Hr | fs1 f0 f1 hb e Ho Hr Hs
          | fs1 f0 f1 f2 hb e Ho Hr Hs Hs' | fs1 f0 f1 f2 f3 hb e Ho Hr Hs Hs' Hd];
    unfold Get, backing in *.
  - rewrite Hexp. reflexivity.
  - destruct (_ && _); [reflexivity |]. rewrite Ho. reflexivity.
  - destruct (_ && _); [reflexivity |]. rewrite Ho, Hr. reflexivity.
  - destruct (_ && _); [reflexivity |]. rewrite Ho, Hr, Hs. reflexivity.
  - destruct (_ && _); [reflexivity |]. rewrite Ho, Hr, Hs, Hs'. reflexivity.
  - destruct (_ && _); [reflexivity |]. rewrite Ho, Hr, Hs, Hs', Hd. reflexivity.
Qed.

(** C6.  When [Expire] is true and [Expiry] is strictly before the call time,
    [Get] removes the backing file and returns [nil] without looking at the
    file; when [Expire] is false or [Expiry] has not passed, every regular
    file is still there after the call, with its contents. *)
Theorem Get_expiry_deletes (c : Cache) (now : time_Time) (fs : FS) :
  (Expire c = true /\ Expiry c < now ->
     Load c now fs = (c, os_Remove (path_of c) fs, None) /\
     forall data, fs !! path_of c = Some (Regular data) ->
       snd (fst (Load c now fs)) = delete (path_of c) fs /\
       snd (fst (Load c now fs)) !! path_of c = None) /\
  (Expire c = false \/ now <= Expiry c ->
     forall q data, fs !! q = Some (Regular data) ->
       snd (fst (Load c now fs)) !! q = Some (Regular data)).
Proof.
  split.
  - intros Hexp. apply expired_true in Hexp.
    rewrite (Get_expired _ _ c now fs Hexp). split; [reflexivity |].
    intros data Hdata. cbn [fst snd].
    rewrite (os_Remove_Regular _ _ _ Hdata).
    split; [reflexivity | apply lookup_delete_eq].
  - intros Hlive q data Hq. apply expired_false in Hlive.
    unfold Get. fold (expired c now). rewrite Hlive.
    destruct (os_OpenFile _ fs) as [fs1 [f0 | e]] eqn:Ho.
    + assert (Hq1 : fs1 !! q = Some (Regular data)).
      { apply os_OpenFile_Ok in Ho as [_ [(d0 & _ & ->) | (Hnone & ->)]].
        - exact Hq.
        - rewrite lookup_insert_ne; [exact Hq |]. intros <-. congruence. }
      destruct (File_Read f0 _ fs1) as [[f1 hb] | e]; [| exact Hq1].
      destruct (File_Seek f1 4 0 fs1) as [f2 | e]; [| exact Hq1].
      destruct (File_Seek f2 _ 1 fs1) as [f3 | e]; [| exact Hq1].
      destruct (gob_Decode_items _) as [items | e]; exact Hq1.
    + apply os_OpenFile_Err in Ho as [_ ->]. exact Hq.
Qed.

(** C7, as amended.  A [Get] that returns items leaves the file system as it
    was.  On its other paths [Get] changes the file system in two ways only:
    it removes the backing file when it detects expiry, and, when it does not,
    it creates the backing file, empty, if the file was missing. *)
Theorem Get_frame (c : Cache) (now : time_Time) (fs : FS) :
  (forall items, snd (Load c now fs) = Some items ->
     snd (fst (Load c now fs)) = fs) /\
  (expired c now = true ->
     snd (fst (Load c now fs)) = os_Remove (path_of c) fs) /\
  (expired c now = false -> fs !! path_of c = None ->
     snd (fst (Load c now fs)) = <[path_of c := Regular []]> fs /\
     snd (Load c now fs) = None) /\
  (expired c now = false -> fs !! path_of c <> None ->
     snd (fst (Load c now fs)) = fs).
Proof.
  assert (Hkept : forall fs1 f0 (r : option (list T)),
    snd (fst (match File_Read f0 (make_bytes 4) fs1 with
              | Err _ => (c, fs1, None)
              | Ok (file, hb) =>
                match File_Seek file 4 0 fs1 with
                | Err _ => (c, fs1, None)
                | Ok file =>
                  match File_Seek file (LittleEndian_Uint32 hb) 1 fs1 with
                  | Err _ => (c, fs1, None)
                  | Ok file =>
                    match gob_Decode_items (File_rest file fs1) with
                    | Err _ => (c, fs1, None)
                    | Ok items => (c, fs1, Some items)
                    end
                  end
                end
              end)) = fs1).
  { intros fs1 f0 _.
    destruct (File_Read f0 _ fs1) as [[f1 hb] | e]; [| reflexivity].
    destruct (File_Seek f1 4 0 fs1) as [f2 | e]; [| reflexivity].
    destruct (File_Seek f2 _ 1 fs1) as [f3 | e]; [| reflexivity].
    destruct (gob_Decode_items _) as [items | e]; reflexivity. }
  split; [| split; [| split]].
  - intros items. unfold Get, backing. fold (expired c now).
    destruct (expired c now); [discriminate |].
    destruct (os_OpenFile _ fs) as [fs1 [f0 | e]] eqn:Ho; [| discriminate].
    rewrite (Hkept fs1 f0 None).
    apply os_OpenFile_Ok in Ho as [-> [(d0 & _ & ->) | (Hnone & ->)]];
      [reflexivity |].
    rewrite File_Read_EOF; [discriminate | | lia].
    unfold File_rest, File_data. cbn [f_name].
    rewrite lookup_insert_eq. reflexivity.
  - intros Hexp. rewrite (Get_expired _ _ c now fs Hexp). reflexivity.
  - intros Hlive Hnone. unfold Get, backing in *. fold (expired c now).
    rewrite Hlive, (os_OpenFile_missing _ _ Hnone). split.
    + apply Hkept. exact None.
    + rewrite File_Read_EOF; [reflexivity | | lia].
      unfold File_rest, File_data. cbn [f_name].
      rewrite lookup_insert_eq. reflexivity.
  - intros Hlive Hsome. unfold Get, backing in *. fold (expired c now).
    rewrite Hlive.
    destruct (fs !! path_Join Location (Identifier c)) as [[d0 |] |] eqn:E;
      [| | contradiction].
    + rewrite (os_OpenFile_Regular _ _ _ E). apply Hkept. exact None.
    + rewrite (os_OpenFile_Unreachable _ _ E). reflexivity.
Qed.

(** C8, as amended.  [New] has one failure result, the [nil] pointer, for both
    of its failures: the backing file cannot be opened or created, or the
    header and the metadata block were read and the block does not decode.
    When the read of the header fails, [New] succeeds with the handle built
    from its arguments; that read fails exactly when the file is missing or
    empty.  A file of one to four bytes is read as a zero-padded header: when
    that header is zero, the empty block goes to the decoder, and [New]
    returns [nil] if it does not decode. *)
Theorem New_outcomes (id : string) (d : time_Duration) (now : time_Time)
    (fs : FS) :
  let c := mkCache id (negb (d =? 0)) (time_Add now d) in
  let p := path_Join Location id in
  (forall fs1 e,
     os_OpenFile p fs = (fs1, Err e) ->
     snd (Open id d now fs) = None) /\
  (forall fs1 f0 f1 f2 f3 hb cb e,
     os_OpenFile p fs = (fs1, Ok f0) ->
     File_Read f0 (make_bytes 4) fs1 = Ok (f1, hb) ->
     File_Seek f1 4 0 fs1 = Ok f2 ->
     File_Read f2 (make_bytes (Z.to_nat (LittleEndian_Uint32 hb))) fs1
       = Ok (f3, cb) ->
     gob_Decode_Cache cb c = Err e ->
     snd (Open id d now fs) = None) /\
  (forall fs1 f0 e,
     os_OpenFile p fs = (fs1, Ok f0) ->
     File_Read f0 (make_bytes 4) fs1 = Err e ->
     snd (Open id d now fs) = Some c) /\
  (fs !! p = None \/ fs !! p = Some (Regular []) ->
     snd (Open id d now fs) = Some c) /\
  (forall fs1 f0,
     os_OpenFile p fs = (fs1, Ok f0) ->
     ((exists e, File_Read f0 (make_bytes 4) fs1 = Err e) <->
      (fs !! p = None \/ fs !! p = Some (Regular [])))) /\
  (forall data,
     fs !! p = Some (Regular data) ->
     (0 < length data <= 4)%nat ->
     LittleEndian_Uint32 (data ++ make_bytes (4 - length data)) = 0 ->
     Open id d now fs =
       (fs, match gob_Decode_Cache [] c with
            | Ok c' => Some c'
            | Err _ => None
            end)).
Proof.
  intros c p. split; [| split; [| split; [| split; [| split]]]].
  - intros fs1 e Ho. unfold New. cbn [Identifier]. fold p.
    rewrite Ho. reflexivity.
  - intros fs1 f0 f1 f2 f3 hb cb e Ho Hr Hs Hr' Hd.
    unfold New. cbn [Identifier]. fold p. fold c.
    rewrite Ho, Hr, Hs, Hr'. unfold bytes_NewBuffer. rewrite Hd. reflexivity.
  - intros fs1 f0 e Ho Hr. unfold New. cbn [Identifier]. fold p.
    rewrite Ho, Hr. reflexivity.
  - intros Hfresh. rewrite (New_fresh _ _ id d now fs Hfresh). reflexivity.
  - intros fs1 f0 Ho.
    apply os_OpenFile_Ok in Ho as [-> [(d0 & Hd & ->) | (Hnone & ->)]].
    + split.
      * intros [e Hr]. apply File_Read_header_Err in Hr.
        unfold File_rest, File_data in Hr. cbn [f_name f_off] in Hr.
        rewrite Hd in Hr. change (Z.to_nat 0) with 0%nat in Hr.
        rewrite drop_0 in Hr. subst d0. right. exact Hd.
      * intros [Hn | He]; [congruence |].
        exists EOF. apply File_Read_EOF; [| lia].
        unfold File_rest, File_data. cbn [f_name f_off].
        rewrite He. reflexivity.
    + split.
      * intros _. left. exact Hnone.
      * intros _. exists EOF. apply File_Read_EOF; [| lia].
        unfold File_rest, File_data. cbn [f_name f_off].
        rewrite lookup_insert_eq. reflexivity.
  - intros data Hfile Hlen Hz. unfold New. cbn [Identifier]. fold p. fold c.
    rewrite (os_OpenFile_Regular _ _ _ Hfile).
    assert (Hdata : File_data (mkFile p 0) fs = data)
      by (apply File_data_lookup; exact Hfile).
    rewrite (File_Read_short _ _ 4 data);
      [| unfold File_rest; rewrite Hdata; reflexivity | exact Hlen].
    cbn [f_name f_off]. rewrite File_Seek_start by lia.
    rewrite Hz. change (Z.to_nat 0) with 0%nat.
    rewrite File_Read_empty. unfold bytes_NewBuffer.
    destruct (gob_Decode_Cache [] c); reflexivity.
Qed.

(** C9.  Neither [Set] nor [Get] changes the handle: its [Identifier],
    [Expire] and [Expiry] are the same after the call as before, whether the
    call succeeds or fails. *)
Theorem Set_Get_keep_handle (c : Cache) (items : list T) (now : time_Time)
    (fs : FS) :
  let c1 := fst (fst (Save c items fs)) in
  let c2 := fst (fst (Load c now fs)) in
  (Identifier c1 = Identifier c /\ Expire c1 = Expire c /\
   Expiry c1 = Expiry c) /\
  (Identifier c2 = Identifier c /\ Expire c2 = Expire c /\
   Expiry c2 = Expiry c).
Proof.
  intros c1 c2. subst c1 c2.
  rewrite Set__handle, Get_handle. repeat split.
Qed.

(** C10.  [New] with a strictly negative duration on an identifier whose file
    is missing or empty returns a handle with [Expire] true and an [Expiry]
    already in the past; every later [Get] through that handle, whatever has
    been saved in between, removes the backing file and returns [nil]. *)
Theorem New_negative_duration (id : string) (d : time_Duration)
    (now0 : time_Time) (fs0 : FS) :
  d < 0 ->
  fs0 !! path_Join Location id = None \/
  fs0 !! path_Join Location id = Some (Regular []) ->
  exists fs1 c,
    Open id d now0 fs0 = (fs1, Some c) /\
    Expire c = true /\ Expiry c < now0 /\
    forall (now1 : time_Time) (fs : FS),
      now0 <= now1 ->
      Load c now1 fs = (c, os_Remove (path_of c) fs, None) /\
      forall data, fs !! path_of c = Some (Regular data) ->
        snd (fst (Load c now1 fs)) !! path_of c = None.
Proof.
  intros Hd Hfresh. eexists _, _.
  split; [apply (New_fresh _ _ id d now0 fs0 Hfresh) |].
  cbn [Expire Expiry]. unfold time_Add.
  split; [destruct (Z.eqb_spec d 0); [lia | reflexivity] |].
  split; [lia |].
  intros now1 fs Hnow.
  assert (Hexp : expired (mkCache id (negb (d =? 0)) (now0 + d)) now1 = true).
  { apply expired_true. cbn [Expire Expiry].
    split; [destruct (Z.eqb_spec d 0); [lia | reflexivity] | lia]. }
  rewrite (Get_expired _ _ _ now1 fs Hexp). split; [reflexivity |].
  intros data Hdata. cbn [fst snd].
  rewrite (os_Remove_Regular _ _ _ Hdata). apply lookup_delete_eq.
Qed.

End Claims.

(** ** The claims on concrete runs *)

(** C1, counterexample.  The file of [a] was saved through a handle that
    expires at instant 100.  At instant 1000, [Open("a", 0)] returns the
    persisted handle, [Save([7, 8])] succeeds, and the [Load] at instant 1001
    returns absent, although the duration passed was zero. *)
Lemma roundtrip_fails_on_stale_file :
  snd (Run.Open "a" 0 1000 Run.fs_expiring) = Some Run.expiring /\
  Run.returned
    (Run.Save Run.expiring [7; 8] (fst (Run.Open "a" 0 1000 Run.fs_expiring)))
    = None /\
  Run.returned
    (Run.Load Run.expiring 1001
       (Run.fs_after
          (Run.Save Run.expiring [7; 8]
             (fst (Run.Open "a" 0 1000 Run.fs_expiring)))))
    = None.
Proof. split; [| split]; vm_compute; reflexivity. Qed.

(** C1, on a concrete run: a new identifier, opened with duration zero. *)
Lemma Open_Save_Load_roundtrip_run :
  Run.Load Run.lasting 5000 Run.fs_lasting
    = (Run.lasting, Run.fs_lasting, Some [1; 2; -3]).
Proof.
  refine (proj1 (Open_Save_Load_roundtrip Wire.Location Wire.path_Join
                   "a" 0 100 5000 ∅ (fst (Run.Open "a" 0 100 ∅)) Run.fs_lasting
                   Run.lasting Run.lasting [1; 2; -3]
                   (Wire.put_Cache Run.lasting) _ _ _ _) _).
  - vm_compute. reflexivity.
  - vm_compute. reflexivity.
  - reflexivity.
  - vm_compute. reflexivity.
  - left. reflexivity.
Defined.

(** C2, on a concrete run. *)
Lemma Set_layout_invariant_run :
  exists payload data,
    gob_Encode_items [1; 2; -3] = (payload, None) /\
    Run.fs_lasting !! backing Wire.Location Wire.path_Join Run.lasting
      = Some (Regular data) /\
    LittleEndian_Uint32 (take 4 data)
      = Buffer_Len (Wire.put_Cache Run.lasting) /\
    take (length (Wire.put_Cache Run.lasting)) (drop 4 data)
      = Wire.put_Cache Run.lasting /\
    drop (4 + length (Wire.put_Cache Run.lasting)) data = payload.
Proof.
  apply (Set_layout_invariant Wire.Location Wire.path_Join
           Run.lasting Run.lasting [1; 2; -3] ∅ Run.fs_lasting
           (Wire.put_Cache Run.lasting)).
  - vm_compute. reflexivity.
  - reflexivity.
  - vm_compute. reflexivity.
Defined.

(** C3, counterexample.  Through a handle that expires at instant 100,
    [Save([1])] and [Save([2])] succeed and the [Load] at instant 101 returns
    absent, not [[2]]. *)
Lemma overwrite_absent_when_expired :
  Run.returned (Run.Save Run.expiring [1] ∅) = None /\
  Run.returned
    (Run.Save Run.expiring [2] (Run.fs_after (Run.Save Run.expiring [1] ∅)))
    = None /\
  Run.returned
    (Run.Load Run.expiring 101
       (Run.fs_after
          (Run.Save Run.expiring [2]
             (Run.fs_after (Run.Save Run.expiring [1] ∅)))))
    = None.
Proof. split; [| split]; vm_compute; reflexivity. Qed.

(** C3, on a concrete run: after [Save([1])] and [Save([2])] the [Load]
    returns [[2]] at instant 100 and absent at instant 101. *)
Lemma Set_replaces_run :
  (exists payload,
     gob_Encode_items [2] = (payload, None) /\
     Run.fs_after
       (Run.Save Run.expiring [2] (Run.fs_after (Run.Save Run.expiring [1] ∅)))
       !! backing Wire.Location Wire.path_Join Run.expiring
     = Some (Regular (file_image (Wire.put_Cache Run.expiring) payload))) /\
  (forall now,
     snd (Run.Load Run.expiring now
            (Run.fs_after
               (Run.Save Run.expiring [2]
                  (Run.fs_after (Run.Save Run.expiring [1] ∅)))))
     = if expired Run.expiring now then None else Some [2]).
Proof.
  apply (Set_replaces Wire.Location Wire.path_Join
           Run.expiring Run.expiring Run.expiring [1] [2] ∅
           (Run.fs_after (Run.Save Run.expiring [1] ∅))
           (Run.fs_after
              (Run.Save Run.expiring [2]
                 (Run.fs_after (Run.Save Run.expiring [1] ∅))))
           None (Wire.put_Cache Run.expiring)).
  - vm_compute. reflexivity.
  - vm_compute. reflexivity.
  - reflexivity.
  - vm_compute. reflexivity.
Defined.

(** The two saved file systems, as [Set] returned them. *)
Lemma run_Save_lasting :
  Run.Save Run.lasting [1; 2; -3] ∅ = (Run.lasting, Run.fs_lasting, None).
Proof. vm_compute. reflexivity. Qed.

Lemma run_Save_expiring :
  Run.Save Run.expiring [1; 2] ∅ = (Run.expiring, Run.fs_expiring, None).
Proof. vm_compute. reflexivity. Qed.

Lemma run_fit_lasting : Buffer_Len (Wire.put_Cache Run.lasting) < 2 ^ 32.
Proof. vm_compute. reflexivity. Qed.

Lemma run_fit_expiring : Buffer_Len (Wire.put_Cache Run.expiring) < 2 ^ 32.
Proof. vm_compute. reflexivity. Qed.

(** C4, on the failing input.  [Open("a", 0)] at instant 100 and a [Save] left
    the file of [a] with [Expire = false].  [Open("a", 10)] at instant 200
    returns the handle built from the duration 10 overwritten by the
    transmitted fields only: its [Expire] is true, from the duration just
    passed, and its [Expiry] is the persisted 100. *)
Lemma New_after_Set_merges_run :
  New Wire.Location Wire.path_Join "a" 10 200 Run.fs_lasting =
    (Run.fs_lasting,
     Some (gob_merge Run.lasting
             (mkCache "a" (negb (10 =? 0)) (time_Add 200 10)))) /\
  (Expire Run.lasting = false -> 10 <> 0 ->
   exists c,
     snd (New Wire.Location Wire.path_Join "a" 10 200 Run.fs_lasting) = Some c /\
     Expire c = true /\ Expiry c = Expiry Run.lasting).
Proof.
  exact (New_after_Set_merges Wire.Location Wire.path_Join
           Run.lasting Run.lasting [1; 2; -3] ∅ Run.fs_lasting
           (Wire.put_Cache Run.lasting) "a" 10 200
           run_Save_lasting eq_refl run_fit_lasting eq_refl).
Defined.

(** C5, on concrete runs: an expired handle, an unreachable path, a missing
    file and a payload that is no gob all give the same [nil]. *)
Lemma Get_failure_is_absent_run :
  snd (Get Wire.Location Wire.path_Join Run.expiring 101 Run.fs_expiring)
    = None /\
  snd (Get Wire.Location Wire.path_Join Run.lasting 101 Run.fs_unreachable)
    = None /\
  snd (Get Wire.Location Wire.path_Join Run.lasting 101 (∅ : FS)) = None /\
  snd (Get Wire.Location Wire.path_Join Run.lasting 101 Run.fs_bad_payload)
    = None.
Proof.
  split; [| split; [| split]];
    apply (Get_failure_is_absent Wire.Location Wire.path_Join).
  - apply fails_expired. reflexivity.
  - eapply fails_open. vm_compute. reflexivity.
  - eapply fails_header; vm_compute; reflexivity.
  - eapply fails_decode; vm_compute; reflexivity.
Defined.

(** C6, on concrete runs: at instant 101 the handle that expires at 100 loses
    its file, and the handle that never expires keeps it. *)
Lemma Get_expiry_deletes_run :
  (Get Wire.Location Wire.path_Join Run.expiring 101 Run.fs_expiring
     = (Run.expiring,
        os_Remove (backing Wire.Location Wire.path_Join Run.expiring)
          Run.fs_expiring,
        None) /\
   forall data,
     Run.fs_expiring !! backing Wire.Location Wire.path_Join Run.expiring
       = Some (Regular data) ->
     snd (fst (Get Wire.Location Wire.path_Join Run.expiring 101
                 Run.fs_expiring))
       = delete (backing Wire.Location Wire.path_Join Run.expiring)
           Run.fs_expiring /\
     snd (fst (Get Wire.Location Wire.path_Join Run.expiring 101
                 Run.fs_expiring))
       !! backing Wire.Location Wire.path_Join Run.expiring = None) /\
  (forall q data,
     Run.fs_lasting !! q = Some (Regular data) ->
     snd (fst (Get Wire.Location Wire.path_Join Run.lasting 101
                 Run.fs_lasting)) !! q
       = Some (Regular data)).
Proof.
  split.
  - exact (proj1 (Get_expiry_deletes Wire.Location Wire.path_Join
                    Run.expiring 101 Run.fs_expiring)
                 (conj eq_refl eq_refl)).
  - exact (proj2 (Get_expiry_deletes Wire.Location Wire.path_Join
                    Run.lasting 101 Run.fs_lasting)
                 (or_introl eq_refl)).
Defined.

(** C7, counterexample.  The file of [a] does not exist; a [Get] through a
    handle that has not expired returns [nil] and leaves the file there,
    empty. *)
Lemma Get_creates_missing_file :
  (∅ : FS) !! Run.path_a = None /\
  Run.returned (Run.Load Run.lasting 0 ∅) = None /\
  Run.fs_after (Run.Load Run.lasting 0 ∅) !! Run.path_a = Some (Regular []).
Proof. split; [| split]; vm_compute; reflexivity. Qed.

(** C7, on concrete runs: a [Get] that returns items changes nothing, and a
    [Get] on a missing file creates it. *)
Lemma Get_frame_run :
  (forall items,
     snd (Get Wire.Location Wire.path_Join Run.lasting 101 Run.fs_lasting)
       = Some items ->
     snd (fst (Get Wire.Location Wire.path_Join Run.lasting 101
                 Run.fs_lasting)) = Run.fs_lasting) /\
  (snd (fst (Get Wire.Location Wire.path_Join Run.lasting 101 (∅ : FS)))
     = <[backing Wire.Location Wire.path_Join Run.lasting := Regular []]> ∅ /\
   snd (Get Wire.Location Wire.path_Join Run.lasting 101 (∅ : FS)) = None).
Proof.
  split.
  - exact (proj1 (Get_frame Wire.Location Wire.path_Join
                    Run.lasting 101 Run.fs_lasting)).
  - exact (proj1 (proj2 (proj2 (Get_frame Wire.Location Wire.path_Join
                                  Run.lasting 101 ∅)))
             eq_refl eq_refl).
Defined.

(** C8, counterexample.  On a path that cannot be opened [os.OpenFile] fails;
    on a file whose metadata block is no gob the decoder fails; [New] returns
    the same [nil] for both, and nothing else.  And on a file that is too
    short to hold a header, here the single byte 0, [New] does not succeed
    with the default handle: it returns [nil]. *)
Lemma New_failures_look_alike :
  snd (os_OpenFile Run.path_a Run.fs_unreachable) = Err PathError /\
  gob_Decode_Cache [ "009"%byte ] (mkCache "a" true 210) = Err GobError /\
  Run.Open "a" 10 200 Run.fs_unreachable = (Run.fs_unreachable, None) /\
  Run.Open "a" 10 200 Run.fs_corrupt = (Run.fs_corrupt, None) /\
  snd (Run.Open "a" 10 200 {[ Run.path_a := Regular [ "000"%byte ] ]}) = None.
Proof.
  split; [| split; [| split; [| split]]]; vm_compute; reflexivity.
Qed.

(** C8, on concrete runs: the default handle on a missing file, [nil] on an
    unreachable path, and [nil] on a file holding the single byte 0. *)
Lemma New_outcomes_run :
  snd (New Wire.Location Wire.path_Join "a" 10 200 (∅ : FS))
    = Some (mkCache "a" (negb (10 =? 0)) (time_Add 200 10)) /\
  snd (New Wire.Location Wire.path_Join "a" 10 200 Run.fs_unreachable) = None /\
  New Wire.Location Wire.path_Join "a" 10 200
      ({[ Wire.path_Join Wire.Location "a" := Regular [ "000"%byte ] ]} : FS)
    = ({[ Wire.path_Join Wire.Location "a" := Regular [ "000"%byte ] ]},
       match gob_Decode_Cache []
               (mkCache "a" (negb (10 =? 0)) (time_Add 200 10)) with
       | Ok c' => Some c'
       | Err _ => None
       end).
Proof.
  split; [| split].
  - exact (proj1 (proj2 (proj2 (proj2
             (New_outcomes Wire.Location Wire.path_Join "a" 10 200 ∅))))
             (or_introl eq_refl)).
  - refine (proj1 (New_outcomes Wire.Location Wire.path_Join
                     "a" 10 200 Run.fs_unreachable)
              Run.fs_unreachable PathError _).
    vm_compute. reflexivity.
  - refine (proj2 (proj2 (proj2 (proj2 (proj2
              (New_outcomes Wire.Location Wire.path_Join "a" 10 200
                 ({[ Wire.path_Join Wire.Location "a"
                       := Regular [ "000"%byte ] ]} : FS))))))
              [ "000"%byte ] _ _ _).
    + apply lookup_singleton_eq.
    + simpl. lia.
    + vm_compute. reflexivity.
Defined.

(** C10, on a concrete run: opened at instant 100 with duration -5. *)
Lemma New_negative_duration_run :
  exists fs1 c,
    New Wire.Location Wire.path_Join "a" (-5) 100 ∅ = (fs1, Some c) /\
    Expire c = true /\ Expiry c < 100 /\
    forall (now1 : time_Time) (fs : FS),
      100 <= now1 ->
      Get Wire.Location Wire.path_Join c now1 fs
        = (c, os_Remove (backing Wire.Location Wire.path_Join c) fs, None) /\
      forall data,
        fs !! backing Wire.Location Wire.path_Join c = Some (Regular data) ->
        snd (fst (Get Wire.Location Wire.path_Join c now1 fs))
          !! backing Wire.Location Wire.path_Join c
          = None.
Proof.
  exact (New_negative_duration Wire.Location Wire.path_Join "a" (-5) 100 ∅
           eq_refl (or_introl eq_refl)).
Defined.

(** ** A reference codec whose item encoder can fail

    Slices of pointers to integers ([[]*int]): gob refuses a slice that holds a
    nil pointer, and has by then written nothing of the value.  [None] is the
    nil pointer. *)
Module WirePtr.

Definition all_some (items : list (option Z)) : option (list Z) :=
  mapM id items.

Definition put_items (items : list (option Z)) : list byte * option error :=
  match all_some items with
  | Some zs => (Wire.put_items zs, None)
  | None => ([], Some GobError)
  end.

Definition get_items (bs : list byte) : result (list (option Z)) :=
  match Wire.get_items bs with
  | Some zs => Ok (map Some zs)
  | None => Err GobError
  end.

Lemma all_some_map (items : list (option Z)) (zs : list Z) :
  all_some items = Some zs -> map Some zs = items.
Proof.
  unfold all_some. revert zs.
  induction items as [| [z |] l IH]; intros zs H; simpl in H.
  - injection H as <-. reflexivity.
  - destruct (mapM id l) as [zs' |] eqn:E; simpl in H; [| discriminate].
    injection H as <-. simpl. rewrite (IH zs' eq_refl). reflexivity.
  - discriminate.
Qed.

Lemma gob_ptr_items_law (items : list (option Z)) (bs : list byte) :
  put_items items = (bs, None) -> get_items bs = Ok items.
Proof.
  unfold put_items, get_items.
  destruct (all_some items) as [zs |] eqn:E; [| discriminate].
  intros [= <-]. rewrite Wire.get_put_items, (all_some_map _ _ E). reflexivity.
Qed.

Definition gob : Gob (option Z) := {|
  gob_Encode_Cache c := Ok (Wire.put_Cache c);
  gob_Decode_Cache bs recv := Wire.of_option (Wire.get_Cache bs recv);
  gob_Encode_items := put_items;
  gob_Decode_items := get_items;
  gob_Cache_roundtrip := Wire.gob_Cache_law;
  gob_items_roundtrip := gob_ptr_items_law;
|}.

End WirePtr.

(** ** More facts about the package *)

Section MoreFacts.

Context {T : Type} {codec : Gob T}.
Variable Location : string.
Variable path_Join : string -> string -> string.

Local Abbreviation Open := (New Location path_Join).
Local Abbreviation Save := (Set_ Location path_Join).
Local Abbreviation Load := (Get Location path_Join).
Local Abbreviation path_of := (backing Location path_Join).

(** [Set] in one equation: it fails before touching the file system when the
    handle does not encode or the file cannot be opened; otherwise the
    backing file becomes the image of the handle and of whatever the item
    encoder wrote, and the encoder's error, if any, is returned. *)
Lemma Set__cases (c : Cache) (items : list T) (fs : FS) :
  Save c items fs =
    match gob_Encode_Cache c with
    | Err e => (c, fs, Some e)
    | Ok meta =>
        match fs !! path_of c with
        | Some Unreachable => (c, fs, Some PathError)
        | _ =>
            (c,
             <[path_of c := Regular (file_image meta (fst (gob_Encode_items items)))]> fs,
             snd (gob_Encode_items items))
        end
    end.
Proof.
  unfold Set_, backing.
  set (p := path_Join Location (Identifier c)).
  destruct (gob_Encode_Cache c) as [meta | e]; [| reflexivity].
  destruct (os_OpenFile p fs) as [fs1 [f | e]] eqn:Hopen.
  2:{ unfold os_OpenFile in Hopen.
      destruct (fs !! p) as [[d0 |] |]; inversion Hopen; subst. reflexivity. }
  apply os_OpenFile_Ok in Hopen as [-> Hfs1].
  assert (Hl1 : (exists d, fs1 !! p = Some (Regular d)) /\
                (forall x, <[p := x]> fs1 = <[p := x]> fs) /\
                fs !! p <> Some Unreachable).
  { destruct Hfs1 as [(d & Hd & ->) | (Hd & ->)].
    - split; [eauto |]. split; [reflexivity | congruence].
    - split; [exists []; apply lookup_insert_eq |].
      split; [intros x; apply insert_insert_eq | congruence]. }
  destruct Hl1 as ((d & Hd) & Hins & Hreach). clear Hfs1.
  rewrite (File_Truncate_zero _ d) by exact Hd.
  rewrite (File_Write_Regular _ _ []) by (simpl; apply lookup_insert_eq).
  cbn [f_name f_off]. rewrite insert_insert_eq.
  rewrite File_Seek_start by lia.
  unfold File_ReadFrom, bytes_NewBuffer, Buffer_Write.
  rewrite (File_Write_Regular _ _ (LittleEndian_PutUint32 (uint32 (Buffer_Len ([] ++ meta)))))
    by (simpl; apply lookup_insert_eq).
  cbn [f_name f_off]. rewrite insert_insert_eq.
  rewrite File_Seek_current by (unfold Buffer_Len; cbn [f_off]; lia).
  cbn [f_name f_off].
  assert (Himg : forall payload,
    write_at (Z.to_nat (4 + Z.of_nat (length ([] ++ meta)) + Buffer_Len []))
      payload
      (write_at (Z.to_nat 4) ([] ++ meta)
         (write_at (Z.to_nat 0)
            (LittleEndian_PutUint32 (uint32 (Buffer_Len ([] ++ meta)))) []))
    = file_image meta payload).
  { intros payload. unfold file_image. simpl app.
    set (hlb := LittleEndian_PutUint32 _).
    change (write_at (Z.to_nat 0) hlb []) with hlb.
    change (Z.to_nat 4) with (length hlb). rewrite write_at_end.
    replace (Z.to_nat (4 + Z.of_nat (length meta) + Buffer_Len []))
      with (length (hlb ++ meta))
      by (rewrite length_app; unfold Buffer_Len; simpl; lia).
    rewrite write_at_end, <- app_assoc. reflexivity. }
  destruct (gob_Encode_items items) as [payload [e |]]; cbn [fst snd].
  - erewrite File_Write_Regular by (simpl; apply lookup_insert_eq).
    cbn [f_name f_off fst]. rewrite insert_insert_eq, Hins, Himg.
    destruct (fs !! p) as [[d0 |] |]; [reflexivity | contradiction | reflexivity].
  - erewrite File_Write_Regular by (simpl; apply lookup_insert_eq).
    cbn [f_name f_off]. rewrite insert_insert_eq, Hins, Himg.
    destruct (fs !! p) as [[d0 |] |]; [reflexivity | contradiction | reflexivity].
Qed.

(** A handle with a non-empty identifier and expiry enabled has no zero
    field: all of it is transmitted, and decoding replaces the receiver. *)
Lemma gob_merge_full (c recv : Cache) :
  Identifier c <> "" -> Expire c = true -> gob_merge c recv = c.
Proof.
  intros Hid Hex. destruct c as [i e t]. unfold gob_merge. cbn in *.
  subst e. destruct (decide (i = "")); [contradiction | reflexivity].
Qed.

(** The file system [New] returns is the one [os.OpenFile] returned. *)
Lemma New_fs (id : string) (d : time_Duration) (now : time_Time) (fs : FS) :
  fst (Open id d now fs) = fst (os_OpenFile (path_Join Location id) fs).
Proof.
  unfold New. cbn [Identifier].
  destruct (os_OpenFile _ fs) as [fs1 [f0 | e]]; [| reflexivity].
  destruct (File_Read f0 _ fs1) as [[f1 hb] | e]; [| reflexivity].
  destruct (File_Seek f1 4 0 fs1) as [f2 | e]; [| reflexivity].
  destruct (File_Read f2 _ fs1) as [[f3 cb] | e]; [| reflexivity].
  destruct (gob_Decode_Cache _ _) as [c | e]; reflexivity.
Qed.

(** X1.  Persisted metadata wins on reopen: after a successful [Set] through
    a handle with a non-empty identifier and expiry enabled, [New] on the same
    file returns exactly that handle, whatever duration is passed, and leaves
    the file system as it is. *)
Theorem New_restores_saved_handle (c c1 : Cache) (items : list T)
    (fs0 fs1 : FS) (meta : list byte) (id : string) (d : time_Duration)
    (now : time_Time) :
  Save c items fs0 = (c1, fs1, None) ->
  gob_Encode_Cache c = Ok meta ->
  Buffer_Len meta < 2 ^ 32 ->
  path_Join Location id = path_of c ->
  Identifier c <> "" ->
  Expire c = true ->
  Open id d now fs1 = (fs1, Some c).
Proof.
  intros Hset Hmeta Hfit Hpath Hid Hex.
  apply Set__Ok in Hset as (meta' & payload & Hmeta' & _ & _ & ->).
  rewrite Hmeta in Hmeta'. injection Hmeta' as <-.
  rewrite (New_image _ _ id d now _ meta payload).
  - rewrite (gob_Cache_roundtrip _ _ _ Hmeta), gob_merge_full by assumption.
    reflexivity.
  - rewrite Hpath. apply lookup_insert_eq.
  - exact Hfit.
Qed.

(** X2.  [New] never changes a file that exists: on every path, success or
    failure, its only effect on the file system is the creation of the
    backing file, empty, when it was missing. *)
Theorem New_frame (id : string) (d : time_Duration) (now : time_Time)
    (fs : FS) :
  (fs !! path_Join Location id <> None -> fst (Open id d now fs) = fs) /\
  (fs !! path_Join Location id = None ->
     fst (Open id d now fs) = <[path_Join Location id := Regular []]> fs).
Proof.
  rewrite New_fs. unfold os_OpenFile.
  destruct (fs !! path_Join Location id) as [[data |] |]; cbn [fst];
    split; intros H; congruence.
Qed.

(** X3.  A cache that was opened on a new identifier and never saved to loads
    as absent: [Get] through the handle [New] returned, before its expiry,
    returns [nil] and leaves the backing file empty. *)
Theorem Get_before_Set_absent (id : string) (d : time_Duration)
    (now0 now1 : time_Time) (fs fs1 : FS) (c : Cache) :
  fs !! path_Join Location id = None \/
  fs !! path_Join Location id = Some (Regular []) ->
  Open id d now0 fs = (fs1, Some c) ->
  expired c now1 = false ->
  Load c now1 fs1 = (c, fs1, None) /\
  fs1 !! path_of c = Some (Regular []).
Proof.
  intros Hfresh Hopen Hlive.
  rewrite (New_fresh _ _ id d now0 fs Hfresh) in Hopen.
  injection Hopen as <- <-.
  assert (Hfile : fst (os_OpenFile (path_Join Location id) fs)
                    !! path_Join Location id = Some (Regular [])).
  { destruct Hfresh as [Hnone | Hempty].
    - rewrite (os_OpenFile_missing _ _ Hnone). apply lookup_insert_eq.
    - rewrite (os_OpenFile_Regular _ _ _ Hempty). exact Hempty. }
  split; [| exact Hfile].
  unfold Get. fold (expired (mkCache id (negb (d =? 0)) (time_Add now0 d)) now1).
  rewrite Hlive. cbn [Identifier].
  rewrite (os_OpenFile_Regular _ _ _ Hfile).
  rewrite File_Read_EOF; [reflexivity | | lia].
  unfold File_rest, File_data. cbn [f_name]. rewrite Hfile. reflexivity.
Qed.

(** X4.  After expiry has deleted the file, the identifier is new again:
    [Get] through an expired handle removes the backing file, and a [New] on
    the same path then returns the handle built from its own arguments and
    creates the file, empty.  No stale metadata survives. *)
Theorem New_after_expiry_is_fresh (c : Cache) (now now' : time_Time)
    (fs : FS) (data : list byte) (id : string) (d : time_Duration) :
  fs !! path_of c = Some (Regular data) ->
  expired c now = true ->
  path_Join Location id = path_of c ->
  Open id d now' (snd (fst (Load c now fs))) =
    (<[path_of c := Regular []]> fs,
     Some (mkCache id (negb (d =? 0)) (time_Add now' d))).
Proof.
  intros Hfile Hexp Hpath.
  rewrite (Get_expired _ _ c now fs Hexp). cbn [fst snd].
  rewrite (os_Remove_Regular _ _ _ Hfile).
  assert (Hgone : delete (path_of c) fs !! path_Join Location id = None)
    by (rewrite Hpath; apply lookup_delete_eq).
  rewrite (New_fresh _ _ id d now' _ (or_introl Hgone)).
  rewrite (os_OpenFile_missing _ _ Hgone). cbn [fst].
  rewrite Hpath, insert_delete_eq. reflexivity.
Qed.

(** A [Get] that returns items has changed nothing and was not expired. *)
Lemma Get_Some_inv (c c' : Cache) (now : time_Time) (fs fs' : FS)
    (items : list T) :
  Load c now fs = (c', fs', Some items) ->
  c' = c /\ fs' = fs /\ expired c now = false.
Proof.
  unfold Get. fold (expired c now).
  destruct (expired c now); [discriminate |].
  destruct (os_OpenFile _ fs) as [fs1 [f0 | e]] eqn:Ho; [| discriminate].
  apply os_OpenFile_Ok in Ho as [-> [(d0 & _ & ->) | (Hnone & ->)]].
  - destruct (File_Read _ _ fs) as [[f1 hb] | e]; [| discriminate].
    destruct (File_Seek f1 4 0 fs) as [f2 | e]; [| discriminate].
    destruct (File_Seek f2 _ 1 fs) as [f3 | e]; [| discriminate].
    destruct (gob_Decode_items _) as [l | e]; [| discriminate].
    intros [= <- <- <-]. repeat split.
  - rewrite File_Read_EOF; [discriminate | | lia].
    unfold File_rest, File_data. cbn [f_name].
    rewrite lookup_insert_eq. reflexivity.
Qed.

(** The clock matters to [Get] through the expiry test only. *)
Lemma Get_time (c : Cache) (now now' : time_Time) (fs : FS) :
  expired c now = false -> expired c now' = false ->
  Load c now fs = Load c now' fs.
Proof.
  intros H H'. unfold Get. fold (expired c now) (expired c now').
  rewrite H, H'. reflexivity.
Qed.

(** What [Set] saved is what [Get] returns through any handle on the same
    path that has not expired. *)
Lemma Get_after_Set (c c1 c2 : Cache) (items : list T) (fs0 fs1 : FS)
    (meta : list byte) (now : time_Time) :
  Save c items fs0 = (c1, fs1, None) ->
  gob_Encode_Cache c = Ok meta ->
  Buffer_Len meta < 2 ^ 32 ->
  path_of c2 = path_of c ->
  expired c2 now = false ->
  Load c2 now fs1 = (c2, fs1, Some items).
Proof.
  intros Hset Hmeta Hfit Hpath Hlive.
  apply Set__Ok in Hset as (meta' & payload & Hmeta' & Hpay & _ & ->).
  rewrite Hmeta in Hmeta'. injection Hmeta' as <-.
  rewrite (Get_image _ _ c2 now _ meta payload); try assumption.
  - rewrite (gob_items_roundtrip _ _ Hpay). reflexivity.
  - rewrite Hpath. apply lookup_insert_eq.
Qed.

(** X5.  A [Set] that cannot start leaves the file system untouched and
    returns the error: when the handle does not encode, and when the backing
    file cannot be opened or created. *)
Theorem Set_fails_untouched (c : Cache) (items : list T) (fs : FS) :
  (forall e, gob_Encode_Cache c = Err e ->
     Save c items fs = (c, fs, Some e)) /\
  (forall meta, gob_Encode_Cache c = Ok meta ->
     fs !! path_of c = Some Unreachable ->
     Save c items fs = (c, fs, Some PathError)).
Proof.
  split.
  - intros e He. rewrite Set__cases, He. reflexivity.
  - intros meta Hmeta Hun. rewrite Set__cases, Hmeta, Hun. reflexivity.
Qed.

(** X6.  [Set] touches the backing file only and never removes a file: on
    every path, success or failure, every other path of the file system is as
    before, and a backing path that named something still does. *)
Theorem Set_frame (c : Cache) (items : list T) (fs : FS) :
  (forall q, q <> path_of c ->
     snd (fst (Save c items fs)) !! q = fs !! q) /\
  (fs !! path_of c <> None ->
     snd (fst (Save c items fs)) !! path_of c <> None).
Proof.
  rewrite Set__cases.
  destruct (gob_Encode_Cache c) as [meta | e]; cbn [fst snd].
  - destruct (fs !! path_of c) as [[d0 |] |] eqn:E; cbn [fst snd].
    + split.
      * intros q Hq. rewrite lookup_insert_ne by congruence. reflexivity.
      * intros _. rewrite lookup_insert_eq. discriminate.
    + split; [reflexivity |]. rewrite E. discriminate.
    + split.
      * intros q Hq. rewrite lookup_insert_ne by congruence. reflexivity.
      * intros H. contradiction.
  - split; [reflexivity | tauto].
Qed.

(** X7.  No rollback: when the items fail to encode, [Set] returns the
    encoder's error and the earlier contents of the backing file are gone;
    the file holds the header, the metadata block and whatever the encoder
    wrote before it failed. *)
Theorem Set_no_rollback (c : Cache) (items : list T) (fs : FS)
    (meta old partial : list byte) (e : error) :
  gob_Encode_Cache c = Ok meta ->
  fs !! path_of c = Some (Regular old) ->
  gob_Encode_items items = (partial, Some e) ->
  Save c items fs =
    (c, <[path_of c := Regular (file_image meta partial)]> fs, Some e).
Proof.
  intros Hmeta Hold Hitems.
  rewrite Set__cases, Hmeta, Hold, Hitems. reflexivity.
Qed.

(** X8.  Loading does not consume: after a [Get] that returned items, a
    second [Get] through the same handle, at any instant before its expiry,
    returns the same items and again leaves the file system as it is. *)
Theorem Get_repeatable (c c' : Cache) (now now' : time_Time) (fs fs' : FS)
    (items : list T) :
  Load c now fs = (c', fs', Some items) ->
  expired c now' = false ->
  Load c' now' fs' = (c', fs', Some items).
Proof.
  intros Hget Hlive.
  destruct (Get_Some_inv _ _ _ _ _ _ Hget) as (-> & -> & Hlive0).
  rewrite <- (Get_time c now now' fs Hlive0 Hlive). exact Hget.
Qed.

(** X10.  A truncated file is a new cache: on a file of one to four bytes
    whose zero-padded header is not zero, the read of the metadata block
    finds nothing, and [New] returns the handle built from its arguments and
    leaves the file as it is. *)
Theorem New_truncated_file (id : string) (d : time_Duration) (now : time_Time)
    (fs : FS) (data : list byte) :
  fs !! path_Join Location id = Some (Regular data) ->
  (0 < length data <= 4)%nat ->
  LittleEndian_Uint32 (data ++ make_bytes (4 - length data)) <> 0 ->
  Open id d now fs =
    (fs, Some (mkCache id (negb (d =? 0)) (time_Add now d))).
Proof.
  intros Hfile Hlen Hnz. unfold New. cbn [Identifier].
  set (p := path_Join Location id) in *.
  rewrite (os_OpenFile_Regular _ _ _ Hfile).
  assert (Hdata : File_data (mkFile p 0) fs = data)
    by (apply File_data_lookup; exact Hfile).
  rewrite (File_Read_short _ _ 4 data);
    [| unfold File_rest; rewrite Hdata; reflexivity | exact Hlen].
  cbn [f_name f_off]. rewrite File_Seek_start by lia. cbn [f_name f_off].
  pose proof (LittleEndian_Uint32_nonneg (data ++ make_bytes (4 - length data))).
  rewrite File_Read_EOF; [reflexivity | | lia].
  unfold File_rest.
  replace (File_data _ fs) with data by (symmetry; exact Hdata).
  cbn [f_off]. apply drop_ge. change (Z.to_nat 4) with 4%nat. lia.
Qed.

(** X11.  Saved items survive a reopen: after a successful [Set] through a
    handle with a non-empty identifier, the handle that [New] returns on the
    same path, whatever duration is passed, loads exactly the saved items at
    any instant at which that handle has not expired. *)
Theorem Set_New_Get_persistence (c c1 c' : Cache) (items : list T)
    (fs0 fs1 fs2 : FS) (meta : list byte) (id : string) (d : time_Duration)
    (now now' : time_Time) :
  Save c items fs0 = (c1, fs1, None) ->
  gob_Encode_Cache c = Ok meta ->
  Buffer_Len meta < 2 ^ 32 ->
  Identifier c <> "" ->
  path_Join Location id = path_of c ->
  Open id d now fs1 = (fs2, Some c') ->
  expired c' now' = false ->
  Load c' now' fs2 = (c', fs2, Some items).
Proof.
  intros Hset Hmeta Hfit Hid Hpath Hopen Hlive.
  assert (Hsaved := Hset).
  apply Set__Ok in Hset as (meta' & payload & Hmeta' & _ & _ & Hfs1).
  rewrite Hmeta in Hmeta'. injection Hmeta' as <-.
  rewrite (New_image _ _ id d now fs1 meta payload) in Hopen;
    [| rewrite Hfs1, Hpath; apply lookup_insert_eq | exact Hfit].
  rewrite (gob_Cache_roundtrip _ _ _ Hmeta) in Hopen.
  injection Hopen as <- <-.
  apply (Get_after_Set c c1 _ items fs0 fs1 meta now'); try assumption.
  unfold backing, gob_merge. cbn [Identifier].
  destruct (decide (Identifier c = "")); [contradiction | reflexivity].
Qed.

(** X12.  [Get] decides expiry from the handle in memory and never reads the
    metadata in the file: after a successful [Set] through a handle [c], a
    [Get] through [c] after its expiry returns [nil], while a [Get] at the
    same instant through any handle on the same path that has not expired
    returns the saved items. *)
Theorem Get_through_any_handle (c c1 c2 : Cache) (items : list T)
    (fs0 fs1 : FS) (meta : list byte) (now : time_Time) :
  Save c items fs0 = (c1, fs1, None) ->
  gob_Encode_Cache c = Ok meta ->
  Buffer_Len meta < 2 ^ 32 ->
  path_of c2 = path_of c ->
  expired c2 now = false ->
  Load c2 now fs1 = (c2, fs1, Some items) /\
  (expired c now = true -> snd (Load c now fs1) = None).
Proof.
  intros Hset Hmeta Hfit Hpath Hlive. split.
  - exact (Get_after_Set c c1 c2 items fs0 fs1 meta now
             Hset Hmeta Hfit Hpath Hlive).
  - intros Hexp. rewrite (Get_expired _ _ c now fs1 Hexp). reflexivity.
Qed.

(** X13.  A [Get] through an expired handle whose backing file is missing or
    cannot be reached changes nothing: the failure of [os.Remove] is dropped,
    the file is not created, and the result is [nil]. *)
Theorem Get_expired_without_file (c : Cache) (now : time_Time) (fs : FS) :
  expired c now = true ->
  fs !! path_of c = None \/ fs !! path_of c = Some Unreachable ->
  Load c now fs = (c, fs, None).
Proof.
  intros Hexp Hfile. rewrite (Get_expired _ _ c now fs Hexp).
  unfold os_Remove. destruct Hfile as [-> | ->]; reflexivity.
Qed.

(** X14.  A handle that has expired never loads again: from the instant its
    expiry has passed, whatever is then saved through it (the [Set] succeeds)
    is removed by the next [Get], which returns [nil]. *)
Theorem expired_handle_never_loads (c c1 : Cache) (now now' : time_Time)
    (items : list T) (fs fs1 : FS) :
  expired c now = true ->
  now <= now' ->
  Save c items fs = (c1, fs1, None) ->
  Load c1 now' fs1 = (c1, delete (path_of c) fs, None).
Proof.
  intros Hexp Hnow Hset.
  apply Set__Ok in Hset as (meta & payload & _ & _ & -> & ->).
  assert (Hexp' : expired c now' = true).
  { apply expired_true in Hexp as [Hex Hlt]. apply expired_true.
    split; [exact Hex | lia]. }
  rewrite (Get_expired _ _ c now' _ Hexp').
  rewrite (os_Remove_Regular _ _ (file_image meta payload))
    by apply lookup_insert_eq.
  rewrite delete_insert_eq. reflexivity.
Qed.

End MoreFacts.

(** X9.  The header round trip and its bound: the four bytes [Set] writes for
    a block of [n] bytes read back, in [New] and [Get], as [n] modulo 2^32;
    that is [n] itself exactly when [n] is below 2^32. *)
Theorem header_roundtrip_bound (n : Z) :
  LittleEndian_Uint32 (LittleEndian_PutUint32 (uint32 n)) = n mod 2 ^ 32 /\
  (0 <= n ->
   (LittleEndian_Uint32 (LittleEndian_PutUint32 (uint32 n)) = n <->
    n < 2 ^ 32)).
Proof.
  assert (H : LittleEndian_Uint32 (LittleEndian_PutUint32 (uint32 n))
              = n mod 2 ^ 32).
  { rewrite LittleEndian_Uint32_PutUint32. unfold uint32.
    apply Z.mod_mod. lia. }
  split; [exact H |].
  intros Hn. rewrite H. split.
  - intros Heq. rewrite <- Heq. apply Z.mod_pos_bound. lia.
  - intros Hlt. apply Z.mod_small. lia.
Qed.

(** ** More concrete runs *)

Lemma run_Open_new :
  Run.Open "a" 0 100 ∅ = (fst (Run.Open "a" 0 100 ∅), Some Run.lasting).
Proof. vm_compute. reflexivity. Qed.

Lemma run_file_expiring :
  Run.fs_expiring !! backing Wire.Location Wire.path_Join Run.expiring
    = Some (Regular (file_image (Wire.put_Cache Run.expiring)
                       (Wire.put_items [1; 2]))).
Proof. vm_compute. reflexivity. Qed.

Lemma run_file_lasting :
  Run.fs_lasting !! backing Wire.Location Wire.path_Join Run.lasting
    = Some (Regular (file_image (Wire.put_Cache Run.lasting)
                       (Wire.put_items [1; 2; -3]))).
Proof. vm_compute. reflexivity. Qed.

Lemma run_Load_lasting :
  Run.Load Run.lasting 101 Run.fs_lasting
    = (Run.lasting, Run.fs_lasting, Some [1; 2; -3]).
Proof. vm_compute. reflexivity. Qed.

Lemma run_Open_expiring :
  Run.Open "a" 0 60 Run.fs_expiring = (Run.fs_expiring, Some Run.expiring).
Proof. vm_compute. reflexivity. Qed.

(** X1, on a concrete run: saved with expiry at instant 100, reopened with
    duration zero. *)
Lemma New_restores_saved_handle_run :
  New Wire.Location Wire.path_Join "a" 0 5000 Run.fs_expiring
    = (Run.fs_expiring, Some Run.expiring).
Proof.
  exact (New_restores_saved_handle Wire.Location Wire.path_Join
           Run.expiring Run.expiring [1; 2] ∅ Run.fs_expiring
           (Wire.put_Cache Run.expiring) "a" 0 5000
           run_Save_expiring eq_refl run_fit_expiring eq_refl
           ltac:(discriminate) eq_refl).
Defined.

(** X2, on concrete runs: an existing file is left alone, a missing one is
    created. *)
Lemma New_frame_run :
  fst (New Wire.Location Wire.path_Join "a" 0 100 Run.fs_lasting)
    = Run.fs_lasting /\
  fst (New Wire.Location Wire.path_Join "a" 0 100 (∅ : FS))
    = <[Wire.path_Join Wire.Location "a" := Regular []]> ∅.
Proof.
  split.
  - refine (proj1 (New_frame Wire.Location Wire.path_Join
                     "a" 0 100 Run.fs_lasting) _).
    change (Wire.path_Join Wire.Location "a")
      with (backing Wire.Location Wire.path_Join Run.lasting).
    rewrite run_file_lasting. discriminate.
  - exact (proj2 (New_frame Wire.Location Wire.path_Join "a" 0 100 ∅) eq_refl).
Defined.

(** X3, on a concrete run. *)
Lemma Get_before_Set_absent_run :
  Get Wire.Location Wire.path_Join Run.lasting 200
      (fst (Run.Open "a" 0 100 ∅))
    = (Run.lasting, fst (Run.Open "a" 0 100 ∅), None) /\
  fst (Run.Open "a" 0 100 ∅) !! backing Wire.Location Wire.path_Join Run.lasting
    = Some (Regular []).
Proof.
  exact (Get_before_Set_absent Wire.Location Wire.path_Join
           "a" 0 100 200 ∅ (fst (Run.Open "a" 0 100 ∅)) Run.lasting
           (or_introl eq_refl) run_Open_new eq_refl).
Defined.

(** X4, on a concrete run: expired at instant 101, reopened at instant 200. *)
Lemma New_after_expiry_is_fresh_run :
  New Wire.Location Wire.path_Join "a" 0 200
      (snd (fst (Get Wire.Location Wire.path_Join Run.expiring 101
                   Run.fs_expiring)))
    = (<[backing Wire.Location Wire.path_Join Run.expiring := Regular []]>
         Run.fs_expiring,
       Some (mkCache "a" (negb (0 =? 0)) (time_Add 200 0))).
Proof.
  exact (New_after_expiry_is_fresh Wire.Location Wire.path_Join
           Run.expiring 101 200 Run.fs_expiring _ "a" 0
           run_file_expiring eq_refl eq_refl).
Defined.

(** X5, on a concrete run: the path cannot be opened. *)
Lemma Set_fails_untouched_run :
  Set_ Wire.Location Wire.path_Join Run.lasting [1] Run.fs_unreachable
    = (Run.lasting, Run.fs_unreachable, Some PathError).
Proof.
  exact (proj2 (Set_fails_untouched Wire.Location Wire.path_Join
                  Run.lasting [1] Run.fs_unreachable)
           (Wire.put_Cache Run.lasting) eq_refl eq_refl).
Defined.

(** X6, on a concrete run: saving [a] leaves the path of [b] alone. *)
Lemma Set_frame_run :
  snd (fst (Set_ Wire.Location Wire.path_Join Run.lasting [1] Run.fs_expiring))
    !! Wire.path_Join Wire.Location "b"
  = Run.fs_expiring !! Wire.path_Join Wire.Location "b".
Proof.
  refine (proj1 (Set_frame Wire.Location Wire.path_Join
                   Run.lasting [1] Run.fs_expiring)
            (Wire.path_Join Wire.Location "b") _).
  vm_compute. discriminate.
Defined.

(** X7, on a concrete run: a slice with a nil pointer does not encode, and
    the three items saved before are gone. *)
Lemma Set_no_rollback_run :
  Set_ (codec := WirePtr.gob) Wire.Location Wire.path_Join Run.lasting
       [Some 1; None] Run.fs_lasting
    = (Run.lasting,
       <[backing Wire.Location Wire.path_Join Run.lasting
           := Regular (file_image (Wire.put_Cache Run.lasting) [])]>
         Run.fs_lasting,
       Some GobError).
Proof.
  exact (Set_no_rollback (codec := WirePtr.gob) Wire.Location Wire.path_Join
           Run.lasting [Some 1; None] Run.fs_lasting
           (Wire.put_Cache Run.lasting) _ [] GobError
           eq_refl run_file_lasting eq_refl).
Defined.

(** X8, on a concrete run: loaded at instant 101 and again at instant 5000. *)
Lemma Get_repeatable_run :
  Get Wire.Location Wire.path_Join Run.lasting 5000 Run.fs_lasting
    = (Run.lasting, Run.fs_lasting, Some [1; 2; -3]).
Proof.
  exact (Get_repeatable Wire.Location Wire.path_Join
           Run.lasting Run.lasting 101 5000 Run.fs_lasting Run.fs_lasting
           [1; 2; -3] run_Load_lasting eq_refl).
Defined.

(** X10, on a concrete run: the file of [a] holds the single byte 5. *)
Lemma New_truncated_file_run :
  New Wire.Location Wire.path_Join "a" 10 200
      ({[ Wire.path_Join Wire.Location "a" := Regular [ "005"%byte ] ]} : FS)
    = ({[ Wire.path_Join Wire.Location "a" := Regular [ "005"%byte ] ]},
       Some (mkCache "a" (negb (10 =? 0)) (time_Add 200 10))).
Proof.
  refine (New_truncated_file Wire.Location Wire.path_Join "a" 10 200
            _ [ "005"%byte ] _ _ _).
  - apply lookup_singleton_eq.
  - simpl. lia.
  - vm_compute. discriminate.
Defined.

(** X11, on a concrete run: saved, reopened at instant 60, loaded at 90. *)
Lemma Set_New_Get_persistence_run :
  Get Wire.Location Wire.path_Join Run.expiring 90 Run.fs_expiring
    = (Run.expiring, Run.fs_expiring, Some [1; 2]).
Proof.
  exact (Set_New_Get_persistence Wire.Location Wire.path_Join
           Run.expiring Run.expiring Run.expiring [1; 2]
           ∅ Run.fs_expiring Run.fs_expiring
           (Wire.put_Cache Run.expiring) "a" 0 60 90
           run_Save_expiring eq_refl run_fit_expiring
           ltac:(discriminate) eq_refl run_Open_expiring eq_refl).
Defined.

(** X12, on a concrete run: at instant 101 the saving handle has expired and
    a handle on the same path that never expires has not. *)
Lemma Get_through_any_handle_run :
  Get Wire.Location Wire.path_Join Run.lasting 101 Run.fs_expiring
    = (Run.lasting, Run.fs_expiring, Some [1; 2]) /\
  (expired Run.expiring 101 = true ->
   snd (Get Wire.Location Wire.path_Join Run.expiring 101 Run.fs_expiring)
     = None).
Proof.
  exact (Get_through_any_handle Wire.Location Wire.path_Join
           Run.expiring Run.expiring Run.lasting [1; 2] ∅ Run.fs_expiring
           (Wire.put_Cache Run.expiring) 101
           run_Save_expiring eq_refl run_fit_expiring eq_refl eq_refl).
Defined.

(** X13, on a concrete run: expired, and no file. *)
Lemma Get_expired_without_file_run :
  Get Wire.Location Wire.path_Join Run.expiring 101 (∅ : FS)
    = (Run.expiring, ∅, None).
Proof.
  exact (Get_expired_without_file Wire.Location Wire.path_Join
           Run.expiring 101 ∅ eq_refl (or_introl eq_refl)).
Defined.

(** X14, on a concrete run: expired at instant 101, saved to, loaded at
    instant 150. *)
Lemma expired_handle_never_loads_run :
  Get Wire.Location Wire.path_Join Run.expiring 150 Run.fs_expiring
    = (Run.expiring,
       delete (backing Wire.Location Wire.path_Join Run.expiring) ∅,
       None).
Proof.
  exact (expired_handle_never_loads Wire.Location Wire.path_Join
           Run.expiring Run.expiring 101 150 [1; 2] ∅ Run.fs_expiring
           eq_refl ltac:(lia) run_Save_expiring).
Defined.
